(** * Mapify OS SDK: a shallow embedding and its verified properties

    The SDK is a browser library made of four cooperating classes:
    [ApiManager] (network calls), [PopupUI] (markup for popups),
    [MapManager] (one map session: click handling, search, markers, events)
    and the facade [MapifyOS] (a registry of sessions keyed by container id).

    Conventions of the embedding.
    - A JavaScript string is a [string] holding the UTF-8 bytes of the text.
      Every string operation the SDK uses (replacing an underscore, the regular
      expression [\b\w], splitting at a comma, escaping [&], [<], [>]) looks
      at ASCII characters only, and bytes of a multi-byte character are all
      above 127, so working on the bytes gives the same result.
    - A value that may be [undefined], [null] or a string is a [jsval].
    - A number is a rational [Q]: every number a JSON document can denote is
      one, and it is falsy exactly when it is zero.
    - Objects that the code mutates are threaded through a state monad [M]
      which also carries the exception that a statement may throw and the
      trace of what the code did to the outside world. *)

From Stdlib Require Import ZArith QArith Ascii String List Bool Lia.
From stdpp Require Import gmap strings list fin_maps pretty.

Local Open Scope string_scope.
Local Open Scope list_scope.

(** ** JavaScript values and string primitives *)

Module Js.

Inductive jsval :=
| JUndefined
| JNull
| JStr (s : string).

(** [typeof v === 'string'] *)
Definition isString (v : jsval) : bool :=
  match v with JStr _ => true | _ => false end.

(** ToBoolean: [undefined], [null] and the empty string are falsy. *)
Definition truthy (v : jsval) : bool :=
  match v with
  | JStr s => negb (String.eqb s "")
  | _ => false
  end.

(** [a || b] *)
Definition or (a b : jsval) : jsval := if truthy a then a else b.

(** [a ?? b]-like test used by the optional chaining operator [?.] *)
Definition nullish (v : jsval) : bool :=
  match v with JStr _ => false | _ => true end.

(** Reading a property that an object may not have. *)
Definition prop (o : gmap string string) (k : string) : jsval :=
  match o !! k with
  | Some s => JStr s
  | None => JUndefined
  end.

(** ToBoolean on a number: zero (of either sign) is falsy. *)
Definition truthyNum (q : Q) : bool := negb (Z.eqb (Qnum q) 0).

(** A number that may be missing from an object. *)
Definition truthyOptNum (q : option Q) : bool :=
  match q with Some x => truthyNum x | None => false end.

Definition code (c : ascii) : nat := nat_of_ascii c.

Definition isLower (c : ascii) : bool := (97 <=? code c)%nat && (code c <=? 122)%nat.
Definition isUpper (c : ascii) : bool := (65 <=? code c)%nat && (code c <=? 90)%nat.
Definition isDigit (c : ascii) : bool := (48 <=? code c)%nat && (code c <=? 57)%nat.

(** The class [\w] of a regular expression without the [u] flag. *)
Definition isWordChar (c : ascii) : bool :=
  isLower c || isUpper c || isDigit c || Ascii.eqb c "_"%char.

(** [toUpperCase] on one character matched by [\w]. *)
Definition toUpperChar (c : ascii) : ascii :=
  if isLower c then ascii_of_nat (code c - 32) else c.

(** [toLowerCase] on one ASCII character. *)
Definition toLowerChar (c : ascii) : ascii :=
  if isUpper c then ascii_of_nat (code c + 32) else c.

(** [s.replace(/_/g, ' ')] *)
Fixpoint replaceUnderscores (s : string) : string :=
  match s with
  | EmptyString => EmptyString
  | String c rest =>
      String (if Ascii.eqb c "_"%char then " "%char else c) (replaceUnderscores rest)
  end.

(** [s.replace(/\b\w/g, l => l.toUpperCase())].  A match is a word character
    that has no word character just before it; [prevWord] tells whether the
    character before the current position is a word character. *)
Fixpoint capitalizeFrom (prevWord : bool) (s : string) : string :=
  match s with
  | EmptyString => EmptyString
  | String c rest =>
      String (if isWordChar c && negb prevWord then toUpperChar c else c)
             (capitalizeFrom (isWordChar c) rest)
  end.

Definition capitalizeWords (s : string) : string := capitalizeFrom false s.

(** [s.split(',')[0]]: the text before the first comma (all of [s] when it
    has none, the empty string when [s] is empty). *)
Fixpoint firstCommaSegment (s : string) : string :=
  match s with
  | EmptyString => EmptyString
  | String c rest =>
      if Ascii.eqb c ","%char then EmptyString else String c (firstCommaSegment rest)
  end.

(** [s.replace(/'/g, "\\'")]: a backslash before every single quote. *)
Fixpoint escapeSingleQuotes (s : string) : string :=
  match s with
  | EmptyString => EmptyString
  | String c rest =>
      if Ascii.eqb c "'"%char
      then String "\"%char (String "'"%char (escapeSingleQuotes rest))
      else String c (escapeSingleQuotes rest)
  end.

(** [s.toLowerCase()].  ASCII capitals become small letters.  Two characters
    outside ASCII have a lower case that contains an ASCII letter, and they
    are mapped as JavaScript does: the Kelvin sign U+212A (bytes 226 132 170)
    becomes [k], and U+0130 (bytes 196 176) becomes [i] followed by U+0307
    (bytes 204 135).  The bytes of every other character outside ASCII are
    kept: JavaScript may replace such a character by other characters
    outside ASCII, which changes no ASCII character of the result nor which
    ASCII characters are next to each other. *)
Fixpoint toLowerCase (s : string) : string :=
  match s with
  | EmptyString => EmptyString
  | String c rest =>
      if Ascii.eqb c "196"%char then
        match rest with
        | String d rest' =>
            if Ascii.eqb d "176"%char
            then String "i"%char (String "204"%char (String "135"%char (toLowerCase rest')))
            else String c (toLowerCase rest)
        | EmptyString => String c EmptyString
        end
      else if Ascii.eqb c "226"%char then
        match rest with
        | String d (String e rest') =>
            if Ascii.eqb d "132"%char && Ascii.eqb e "170"%char
            then String "k"%char (toLowerCase rest')
            else String c (toLowerCase rest)
        | _ => String c (toLowerCase rest)
        end
      else String (toLowerChar c) (toLowerCase rest)
  end.

(** [s.startsWith(p)] *)
Fixpoint startsWith (p s : string) : bool :=
  match p, s with
  | EmptyString, _ => true
  | String a p', String b s' => Ascii.eqb a b && startsWith p' s'
  | String _ _, EmptyString => false
  end.

(** [s.includes(p)] *)
Fixpoint includes (s p : string) : bool :=
  startsWith p s ||
  match s with
  | EmptyString => false
  | String _ rest => includes rest p
  end.

End Js.

Import Js.

(** ** Data that crosses the SDK's boundaries *)

(** A coordinate pair, [{ lat, lng }]. *)
Record LatLng := { lat : Q; lng : Q }.

(** The bag of tags attached to a feature by the tag query. *)
Abbreviation TagBag := (gmap string string).

(** The object [formatPlaceData] and the facade's [getPlaceDetails] return. *)
Record PlaceRecord := {
  name : jsval;
  address : jsval;
  type : jsval;
  phone : jsval;
  website : jsval;
  hours : jsval;
  coordinates : LatLng
}.

(** The body of a reverse-geocode answer. *)
Record NominatimData := {
  nom_name : jsval;
  nom_display_name : jsval
}.

(** One element of the tag query's answer, and the answer itself. *)
Record OverpassElement := { el_tags : option TagBag }.
Record OverpassData := { elements : option (list OverpassElement) }.

(** One entry of the backend's search answer.  [res_lat] and [res_lng] are
    [None] when the entry has no such field. *)
Record SearchResult := {
  res_name : jsval;
  res_address : jsval;
  res_type : jsval;
  res_phone : jsval;
  res_website : jsval;
  res_opening_hours : jsval;
  res_lat : option Q;
  res_lng : option Q
}.

Record SearchData := { results : option (list SearchResult) }.

(** The body of the credential check's answer: [valid] is [Some true] only
    when the field is the boolean [true]. *)
Record VerifyData := { valid : option bool }.

(** What [ApiManager.getPlaceDetails] hands to [formatPlaceData]. *)
Record PlaceData := {
  nominatim : option NominatimData;
  overpass : option OverpassElement
}.

(** ** The outside world: exceptions, requests, answers, observable effects *)

Inductive exn :=
| TypeError (msg : string)
| SyntaxError
| NetworkError
| Error (msg : string).

Inductive request :=
| GetVerify (apiKey : string)
| GetSearch (apiKey : string) (lat lng : Q) (type : string) (radius : Q)
| GetNominatim (lat lng : Q)
| PostOverpass (lat lng : Q).

(** What [response.json()] gives: a rejection when the body is not JSON, the
    value [null], or an object. *)
Inductive json (A : Type) :=
| JsonInvalid
| JsonNull
| JsonObject (a : A).
Arguments JsonInvalid {A}.
Arguments JsonNull {A}.
Arguments JsonObject {A} a.

Record response (A : Type) := {
  ok : bool;
  status : nat;
  body : json A
}.
Arguments ok {A} r.
Arguments status {A} r.
Arguments body {A} r.

(** The servers, as seen from the SDK: for each request either a response or
    [None], a network failure that makes [fetch] reject. *)
Record network := {
  serveVerify : string -> option (response VerifyData);
  serveSearch : string -> Q -> Q -> string -> Q -> option (response SearchData);
  serveNominatim : Q -> Q -> option (response NominatimData);
  serveOverpass : Q -> Q -> option (response OverpassData)
}.

(** A subscriber of a session event: a function of the host page, known by
    its identity.  [cb_throws] is what it throws when called, if it does.
    Subscribers are taken not to call back into the session while an event
    is being delivered. *)
Record callback := { cb_id : nat; cb_throws : option exn }.

Global Instance exn_eq_dec : EqDecision exn.
Proof. solve_decision. Defined.

Global Instance callback_eq_dec : EqDecision callback.
Proof. solve_decision. Defined.

Inductive payload :=
| OnReady
| OnPlaceClick (at_ : LatLng) (data : PlaceRecord)
| OnSearch (query : string) (found : list SearchResult)
| OnSearchError (query : string) (error : exn)
| OnLayerChange (layer : string)
| OnViewChange (center : LatLng) (zoom : Q).

(** A marker made by [L.marker([lat, lng])] with its bound popup markup. *)
Record marker := { mk_lat : Q; mk_lng : Q; mk_popup : string }.

(** Calls into the map library that change what the page shows. *)
Inductive leafletCall :=
| MapCreate (containerId : string) (center : LatLng) (zoom : Q)
| MapRemove
| MapSetView (center : LatLng) (zoom : Q)
| MapFitBounds (around : list marker)
| MarkerAdd (lat lng : Q)
| MarkerBindPopup (lat lng : Q) (content : string)
| MarkerRemove (m : marker)
| TileLayerAdd (url attribution : jsval)
| TileLayerRemove (url attribution : jsval)
| LayerControlAdd (names : list string)
| PopupOpen (popup : nat) (at_ : LatLng) (content : string)
| PopupSetContent (popup : nat) (content : string).

Inductive effect :=
| Fetch (r : request)
| ConsoleError (label : string) (e : exn)
| ConsoleWarn (msg : string)
| Invoke (cb : callback) (event : string) (p : payload)
| Leaflet (c : leafletCall).

(** ** A monad for mutable state, exceptions and a trace of effects *)

Module Monad.

Definition M (S A : Type) : Type := S -> S * list effect * (exn + A).

Definition ret {S A} (a : A) : M S A := fun s => (s, [], inr a).

Definition bind {S A B} (m : M S A) (k : A -> M S B) : M S B :=
  fun s =>
    match m s with
    | (s1, t1, inl e) => (s1, t1, inl e)
    | (s1, t1, inr a) =>
        match k a s1 with
        | (s2, t2, r) => (s2, t1 ++ t2, r)
        end
    end.

Definition throw {S A} (e : exn) : M S A := fun s => (s, [], inl e).

(** [try { m } catch (error) { h error }]: what [m] did before it threw
    is kept. *)
Definition tryCatch {S A} (m : M S A) (h : exn -> M S A) : M S A :=
  fun s =>
    match m s with
    | (s1, t1, inl e) =>
        match h e s1 with
        | (s2, t2, r) => (s2, t1 ++ t2, r)
        end
    | (s1, t1, inr a) => (s1, t1, inr a)
    end.

Definition get {S} : M S S := fun s => (s, [], inr s).
Definition put {S} (s : S) : M S unit := fun _ => (s, [], inr tt).
Definition tell {S} (e : effect) : M S unit := fun s => (s, [e], inr tt).

(** [xs.forEach(f)] *)
Fixpoint forEach {S A} (f : A -> M S unit) (xs : list A) : M S unit :=
  match xs with
  | [] => ret tt
  | x :: rest => bind (f x) (fun _ => forEach f rest)
  end.

(** Running a computation written for one object inside a larger state. *)
Definition stateOf {S A} (r : S * list effect * (exn + A)) : S := fst (fst r).
Definition traceOf {S A} (r : S * list effect * (exn + A)) : list effect := snd (fst r).
Definition resultOf {S A} (r : S * list effect * (exn + A)) : exn + A := snd r.

End Monad.

Import Monad.

Notation "x <- c1 ;; c2" := (bind c1 (fun x => c2))
  (at level 100, c1 at next level, right associativity).
Notation "c1 ;;; c2" := (bind c1 (fun _ => c2))
  (at level 100, right associativity).

(** [await fetch(...)]: the request is issued; a network failure rejects. *)
Definition fetch {S A} (r : request) (reply : option (response A)) : M S (response A) :=
  tell (Fetch r) ;;;
  match reply with
  | Some resp => ret resp
  | None => throw NetworkError
  end.

(** [await response.json()]: [None] stands for the JSON value [null]. *)
Definition responseJson {S A} (r : response A) : M S (option A) :=
  match body r with
  | JsonInvalid => throw SyntaxError
  | JsonNull => ret None
  | JsonObject a => ret (Some a)
  end.

(** Reading property [field] of [o], which throws when [o] is [null]. *)
Definition member {S A B} (o : option A) (field : string) (f : A -> B) : M S B :=
  match o with
  | Some a => ret (f a)
  | None => throw (TypeError ("Cannot read properties of null (reading '" ++ field ++ "')"))
  end.

(** ** ApiManager: key verification and the external lookups *)

Module ApiManager.

Section WithNetwork.

Variable net : network.
Context {S : Type}.

(** [verifyApiKey(apiKey)] *)
Definition verifyApiKey (apiKey : string) : M S bool :=
  tryCatch
    (resp <- fetch (GetVerify apiKey) (serveVerify net apiKey) ;;
     if negb (ok resp) then ret false
     else
       data <- responseJson resp ;;
       v <- member data "valid" valid ;;
       ret (match v with Some true => true | _ => false end))
    (fun error =>
       tell (ConsoleError "API key verification failed:" error) ;;;
       ret false).

(** The [params] object of [searchPlaces]; [type] and [radius] have
    defaults. *)
Record SearchParams := {
  sp_lat : Q;
  sp_lng : Q;
  sp_type : option string;
  sp_radius : option Q
}.

(** [searchPlaces(apiKey, params)] *)
Definition searchPlaces (apiKey : string) (params : SearchParams) : M S (list SearchResult) :=
  tryCatch
    (let lat := sp_lat params in
     let lng := sp_lng params in
     let type := default "hospital" (sp_type params) in
     let radius := default (3000 # 1)%Q (sp_radius params) in
     resp <- fetch (GetSearch apiKey lat lng type radius)
                   (serveSearch net apiKey lat lng type radius) ;;
     if negb (ok resp)
     then throw (Error ("Search API error: " ++ pretty (status resp)))
     else
       data <- responseJson resp ;;
       found <- member data "results" results ;;
       ret (default [] found))
    (fun error =>
       tell (ConsoleError "Search API error:" error) ;;;
       ret []).

(** [overpassData.elements?.[0] || null] *)
Definition firstElement (data : OverpassData) : option OverpassElement :=
  match elements data with
  | Some (e :: _) => Some e
  | _ => None
  end.

(** [getPlaceDetails(lat, lng)] *)
Definition getPlaceDetails (lat lng : Q) : M S PlaceData :=
  tryCatch
    (nominatimResponse <- fetch (GetNominatim lat lng) (serveNominatim net lat lng) ;;
     nominatimData <- responseJson nominatimResponse ;;
     overpassResponse <- fetch (PostOverpass lat lng) (serveOverpass net lat lng) ;;
     overpassData <- responseJson overpassResponse ;;
     first <- member overpassData "elements" firstElement ;;
     ret {| nominatim := nominatimData; overpass := first |})
    (fun error =>
       tell (ConsoleError "Error fetching place details:" error) ;;;
       ret {| nominatim := None; overpass := None |}).

End WithNetwork.

End ApiManager.

(** ** PopupUI: markup for popups *)

Module PopupUI.

Local Open Scope string_scope.

(** The double quote character, for markup written inside string literals. *)
Definition dq : string := String "034"%char EmptyString.

(** What a text node serialises to: [div.textContent = text] followed by
    reading [div.innerHTML] replaces [&], [<], [>] and the no-break space
    (U+00A0, the bytes 194 160) by character references and leaves every
    other character, quotes included, as it is. *)
Fixpoint escapeText (s : string) : string :=
  match s with
  | EmptyString => EmptyString
  | String c rest =>
      if Ascii.eqb c "&"%char then "&amp;" ++ escapeText rest
      else if Ascii.eqb c "<"%char then "&lt;" ++ escapeText rest
      else if Ascii.eqb c ">"%char then "&gt;" ++ escapeText rest
      else if Ascii.eqb c "194"%char then
        match rest with
        | String d rest' =>
            if Ascii.eqb d "160"%char then "&nbsp;" ++ escapeText rest'
            else String c (escapeText rest)
        | EmptyString => String c EmptyString
        end
      else String c (escapeText rest)
  end.

(** [escapeHtml(text)] *)
Definition escapeHtml (text : jsval) : string :=
  match text with
  | JStr s => escapeText s
  | _ => ""
  end.

(** The object handed to [createPopupContent]. *)
Record PopupData := {
  pd_name : jsval;
  pd_address : jsval;
  pd_type : jsval;
  pd_phone : jsval;
  pd_website : jsval;
  pd_hours : jsval
}.

(** A destructuring default: it replaces [undefined] only. *)
Definition withDefault (v : jsval) (d : string) : jsval :=
  match v with
  | JUndefined => JStr d
  | _ => v
  end.

(** [a !== 'literal'] *)
Definition differsFrom (v : jsval) (literal : string) : bool :=
  match v with
  | JStr s => negb (String.eqb s literal)
  | _ => true
  end.

(** [`${v}`] for a value interpolated into a template. *)
Definition interpolate (v : jsval) : string :=
  match v with
  | JStr s => s
  | JNull => "null"
  | JUndefined => "undefined"
  end.

(** [s.replace(/^https?:\/\//, '')] *)
Definition stripProtocol (s : string) : string :=
  if startsWith "http://" s then String.substring 7 (String.length s - 7) s
  else if startsWith "https://" s then String.substring 8 (String.length s - 8) s
  else s.

(** [s.replace(/\/$/, '')] *)
Fixpoint stripTrailingSlash (s : string) : string :=
  match s with
  | EmptyString => EmptyString
  | String c rest =>
      match rest with
      | EmptyString => if Ascii.eqb c "/"%char then EmptyString else s
      | String _ _ => String c (stripTrailingSlash rest)
      end
  end.

(** The literal parts of the template strings of [createPopupContent],
    character for character, with a hole for each interpolation. *)
Definition headTemplate (escName badge escAddress : string) : string :=
  "
      <div class=" ++ dq ++ "mapify-popup" ++ dq ++ ">
        <h3>"
  ++ escName
  ++ "</h3>
        "
  ++ badge
  ++ "
        <div class=" ++ dq ++ "address" ++ dq ++ ">"
  ++ escAddress
  ++ "</div>
        <div class=" ++ dq ++ "contact-info" ++ dq ++ ">
    ".

Definition badgeTemplate (escType : string) : string :=
  "<div class=" ++ dq ++ "category" ++ dq ++ ">"
  ++ escType
  ++ "</div>".

Definition phoneTemplate (phone escPhone : string) : string :=
  "
        <div class=" ++ dq ++ "contact-item" ++ dq ++ ">
          <svg class=" ++ dq ++ "contact-icon" ++ dq ++ " fill=" ++ dq ++ "none" ++ dq ++ " stroke=" ++ dq ++ "currentColor" ++ dq ++ " viewBox=" ++ dq ++ "0 0 24 24" ++ dq ++ ">
            <path stroke-linecap=" ++ dq ++ "round" ++ dq ++ " stroke-linejoin=" ++ dq ++ "round" ++ dq ++ " stroke-width=" ++ dq ++ "2" ++ dq ++ " d=" ++ dq ++ "M3 5a2 2 0 012-2h3.28a1 1 0 01.948.684l1.498 4.493a1 1 0 01-.502 1.21l-2.257 1.13a11.042 11.042 0 005.516 5.516l1.13-2.257a1 1 0 011.21-.502l4.493 1.498a1 1 0 01.684.949V19a2 2 0 01-2 2h-1C9.716 21 3 14.284 3 6V5z" ++ dq ++ "></path>
          </svg>
          <a href=" ++ dq ++ "tel:"
  ++ phone
  ++ dq ++ " class=" ++ dq ++ "contact-link" ++ dq ++ ">"
  ++ escPhone
  ++ "</a>
        </div>
      ".

Definition websiteTemplate (website escDisplayUrl : string) : string :=
  "
        <div class=" ++ dq ++ "contact-item" ++ dq ++ ">
          <svg class=" ++ dq ++ "contact-icon" ++ dq ++ " fill=" ++ dq ++ "none" ++ dq ++ " stroke=" ++ dq ++ "currentColor" ++ dq ++ " viewBox=" ++ dq ++ "0 0 24 24" ++ dq ++ ">
            <path stroke-linecap=" ++ dq ++ "round" ++ dq ++ " stroke-linejoin=" ++ dq ++ "round" ++ dq ++ " stroke-width=" ++ dq ++ "2" ++ dq ++ " d=" ++ dq ++ "M21 12a9 9 0 01-9 9m9-9a9 9 0 00-9-9m9 9H3m9 9v-9m0-9v9" ++ dq ++ "></path>
          </svg>
          <a href=" ++ dq
  ++ website
  ++ dq ++ " target=" ++ dq ++ "_blank" ++ dq ++ " class=" ++ dq ++ "contact-link" ++ dq ++ ">"
  ++ escDisplayUrl
  ++ "</a>
        </div>
      ".

Definition hoursTemplate (escHours : string) : string :=
  "
        <div class=" ++ dq ++ "contact-item" ++ dq ++ ">
          <svg class=" ++ dq ++ "contact-icon" ++ dq ++ " fill=" ++ dq ++ "none" ++ dq ++ " stroke=" ++ dq ++ "currentColor" ++ dq ++ " viewBox=" ++ dq ++ "0 0 24 24" ++ dq ++ ">
            <path stroke-linecap=" ++ dq ++ "round" ++ dq ++ " stroke-linejoin=" ++ dq ++ "round" ++ dq ++ " stroke-width=" ++ dq ++ "2" ++ dq ++ " d=" ++ dq ++ "M12 8v4l3 3m6-3a9 9 0 11-18 0 9 9 0 0118 0z" ++ dq ++ "></path>
          </svg>
          <span>"
  ++ escHours
  ++ "</span>
        </div>
      ".

Definition tailTemplate (copyableAddress : string) : string :=
  "
        </div>
        <button class=" ++ dq ++ "copy-button" ++ dq ++ " onclick=" ++ dq ++ "this.copyAddress('"
  ++ copyableAddress
  ++ "', this)" ++ dq ++ ">
          <svg class=" ++ dq ++ "copy-icon" ++ dq ++ " fill=" ++ dq ++ "none" ++ dq ++ " stroke=" ++ dq ++ "currentColor" ++ dq ++ " viewBox=" ++ dq ++ "0 0 24 24" ++ dq ++ ">
            <path stroke-linecap=" ++ dq ++ "round" ++ dq ++ " stroke-linejoin=" ++ dq ++ "round" ++ dq ++ " stroke-width=" ++ dq ++ "2" ++ dq ++ " d=" ++ dq ++ "M8 16H6a2 2 0 01-2-2V6a2 2 0 012-2h8a2 2 0 012 2v2m-6 12h8a2 2 0 002-2v-8a2 2 0 00-2-2h-8a2 2 0 00-2 2v8a2 2 0 002 2z" ++ dq ++ "></path>
          </svg>
          Copy Address
        </button>
      </div>
    ".

Definition loadingTemplate : string :=
  "
      <div class=" ++ dq ++ "mapify-loading" ++ dq ++ ">
        <div class=" ++ dq ++ "mapify-spinner" ++ dq ++ "></div>
        <span>Loading place information...</span>
      </div>
    ".

Definition errorTemplate : string :=
  "
      <div class=" ++ dq ++ "mapify-error" ++ dq ++ ">
        <p>Unable to load place information</p>
      </div>
    ".

(** [createPopupContent(data)] *)
Definition createPopupContent {S} (data : PopupData) : M S string :=
  let name := withDefault (pd_name data) "Unknown Location" in
  let address := withDefault (pd_address data) "Address not available" in
  let type := withDefault (pd_type data) "Location" in
  let phone := pd_phone data in
  let website := pd_website data in
  let hours := pd_hours data in
  copyableAddress <-
    match address with
    | JStr a => ret (escapeSingleQuotes a)
    | _ => throw (TypeError "Cannot read properties of null (reading 'replace')")
    end ;;
  let content :=
    headTemplate (escapeHtml name)
      (if differsFrom type "Location" then badgeTemplate (escapeHtml type) else "")
      (escapeHtml address) in
  let content :=
    if truthy phone && differsFrom phone "Not available"
    then content ++ phoneTemplate (interpolate phone) (escapeHtml phone)
    else content in
  let content :=
    match website with
    | JStr w =>
        if truthy website
        then
          let displayUrl := stripTrailingSlash (stripProtocol w) in
          content ++ websiteTemplate w (escapeHtml (JStr displayUrl))
        else content
    | _ => content
    end in
  let content :=
    if truthy hours && differsFrom hours "Not available"
    then content ++ hoursTemplate (escapeHtml hours)
    else content in
  ret (content ++ tailTemplate copyableAddress).

(** [result.type?.replace(/_/g, ' ').replace(/\b\w/g, l => l.toUpperCase())] *)
Definition formatResultType (t : jsval) : jsval :=
  match t with
  | JStr s => JStr (capitalizeWords (replaceUnderscores s))
  | _ => JUndefined
  end.

(** [createSearchResultPopup(result)] *)
Definition createSearchResultPopup {S} (result : SearchResult) : M S string :=
  createPopupContent {|
    pd_name := res_name result;
    pd_address := or (res_address result) (JStr "Address not available");
    pd_type := formatResultType (res_type result);
    pd_phone := res_phone result;
    pd_website := res_website result;
    pd_hours := res_opening_hours result
  |}.

(** [createLoadingContent()] *)
Definition createLoadingContent : string := loadingTemplate.

(** [createErrorContent()] *)
Definition createErrorContent : string := errorTemplate.

End PopupUI.

(** ** MapManager: one map session *)

Module MapManager.

Local Open Scope string_scope.

Record Options := {
  center : LatLng;
  zoom : Q;
  layer : string;
  enableSearch : bool;
  enableLayerControl : bool;
  apiKey : string
}.

Record LayerConfig := {
  layerName : string;
  url : string;
  attribution : string
}.

(** [this.layers], in the order the constructor writes its keys. *)
Definition layers : list (string * LayerConfig) :=
  [ ("plain",
     {| layerName := "Plain";
        url := "https://{s}.tile.openstreetmap.org/{z}/{x}/{y}.png";
        attribution := "© OpenStreetMap contributors" |});
    ("terrain",
     {| layerName := "Terrain";
        url := "https://{s}.tile.opentopomap.org/{z}/{x}/{y}.png";
        attribution := "© OpenTopoMap contributors" |});
    ("satellite",
     {| layerName := "Satellite";
        url := "https://server.arcgisonline.com/ArcGIS/rest/services/World_Imagery/MapServer/tile/{z}/{y}/{x}";
        attribution := "© Esri" |});
    ("dark",
     {| layerName := "Dark";
        url := "https://{s}.basemaps.cartocdn.com/dark_all/{z}/{x}/{y}{r}.png";
        attribution := "© CartoDB" |}) ].

(** The state of a [MapManager] object.  [leafletMap] is [this.map]: [None]
    is [null], [Some id] the widget created on container [id].
    [currentLayer] holds the url and attribution the tile layer was built
    from. *)
Record MapManager := {
  containerId : string;
  options : Options;
  leafletMap : option string;
  currentLayer : option (jsval * jsval);
  markers : list marker;
  eventListeners : gmap string (list callback)
}.

Abbreviation Session := (M MapManager).

(** [new MapManager(containerId, options)] *)
Definition new (containerId : string) (options : Options) : MapManager :=
  {| containerId := containerId;
     options := options;
     leafletMap := None;
     currentLayer := None;
     markers := [];
     eventListeners := ∅ |}.

Definition setLeafletMap (m : option string) : Session unit :=
  fun s => put {| containerId := containerId s; options := options s;
                  leafletMap := m; currentLayer := currentLayer s;
                  markers := markers s; eventListeners := eventListeners s |} s.

Definition setCurrentLayer (l : option (jsval * jsval)) : Session unit :=
  fun s => put {| containerId := containerId s; options := options s;
                  leafletMap := leafletMap s; currentLayer := l;
                  markers := markers s; eventListeners := eventListeners s |} s.

Definition setMarkers (ms : list marker) : Session unit :=
  fun s => put {| containerId := containerId s; options := options s;
                  leafletMap := leafletMap s; currentLayer := currentLayer s;
                  markers := ms; eventListeners := eventListeners s |} s.

Definition setEventListeners (l : gmap string (list callback)) : Session unit :=
  fun s => put {| containerId := containerId s; options := options s;
                  leafletMap := leafletMap s; currentLayer := currentLayer s;
                  markers := markers s; eventListeners := l |} s.

(** Calling method [method] of [this.map], or handing [this.map] to a
    library function that calls a method of it: a [TypeError] when
    [this.map] is [null], the call [c] otherwise. *)
Definition onMap (method : string) (c : leafletCall) : Session unit :=
  s <- get ;;
  match leafletMap s with
  | Some _ => tell (Leaflet c)
  | None => throw (TypeError ("Cannot read properties of null (reading '" ++ method ++ "')"))
  end.

(** [emit(event, data)] *)
Definition emit (event : string) (data : payload) : Session unit :=
  s <- get ;;
  match eventListeners s !! event with
  | Some listeners =>
      forEach (fun cb =>
                 tell (Invoke cb event data) ;;;
                 match cb_throws cb with
                 | Some error =>
                     tell (ConsoleError ("Error in event listener for '" ++ event ++ "':") error)
                 | None => ret tt
                 end)
              listeners
  | None => ret tt
  end.

(** [on(event, callback)] *)
Definition on (event : string) (cb : callback) : Session unit :=
  s <- get ;;
  let registry :=
    match eventListeners s !! event with
    | Some _ => eventListeners s
    | None => <[event := []]> (eventListeners s)
    end in
  setEventListeners (<[event := (default [] (registry !! event) ++ [cb])%list]> registry).



(** [formatCategory(tags)] *)
Definition categoryMap (tags : TagBag) : list (string * jsval) :=
  [ ("amenity", prop tags "amenity");
    ("shop", prop tags "shop");
    ("building", prop tags "building");
    ("leisure", prop tags "leisure");
    ("tourism", prop tags "tourism");
    ("highway", prop tags "highway");
    ("office", prop tags "office");
    ("craft", prop tags "craft") ].

Fixpoint firstCategory (entries : list (string * jsval)) : string :=
  match entries with
  | [] => "Location"
  | (_, value) :: rest =>
      match value with
      | JStr v =>
          if truthy value then capitalizeWords (replaceUnderscores v)
          else firstCategory rest
      | _ => firstCategory rest
      end
  end.

Definition formatCategory (tags : option TagBag) : string :=
  match tags with
  | None => "Location"
  | Some t => firstCategory (categoryMap t)
  end.

(** [overpass?.tags || {}] *)
Definition tagsOf (overpass : option OverpassElement) : TagBag :=
  match overpass with
  | Some e => default ∅ (el_tags e)
  | None => ∅
  end.

(** [nominatim?.name] *)
Definition nominatimName (n : option NominatimData) : jsval :=
  match n with
  | Some d => nom_name d
  | None => JUndefined
  end.

(** [nominatim?.display_name] *)
Definition nominatimDisplayName (n : option NominatimData) : jsval :=
  match n with
  | Some d => nom_display_name d
  | None => JUndefined
  end.

(** [v?.split(',')[0]] *)
Definition firstSegmentOf (v : jsval) : jsval :=
  match v with
  | JStr s => JStr (firstCommaSegment s)
  | _ => JUndefined
  end.

(** [formatPlaceData(placeData, lat, lng)] *)
Definition formatPlaceData (placeData : PlaceData) (lat lng : Q) : PlaceRecord :=
  let nominatim := nominatim placeData in
  let overpass := overpass placeData in
  let tags := tagsOf overpass in
  {| name := or (prop tags "name")
               (or (nominatimName nominatim)
                   (or (firstSegmentOf (nominatimDisplayName nominatim))
                       (JStr "Unknown Location")));
     address := or (nominatimDisplayName nominatim) (JStr "Address not available");
     type := JStr (formatCategory (Some tags));
     phone := or (prop tags "phone") (or (prop tags "contact:phone") (JStr "Not available"));
     website := or (prop tags "website")
                  (or (prop tags "contact:website") (or (prop tags "url") JNull));
     hours := or (prop tags "opening_hours") (JStr "Not available");
     coordinates := {| lat := lat; lng := lng |} |}.

(** The object [createPopupContent] destructures is the record itself. *)
Definition asPopupData (r : PlaceRecord) : PopupUI.PopupData :=
  {| PopupUI.pd_name := name r;
     PopupUI.pd_address := address r;
     PopupUI.pd_type := type r;
     PopupUI.pd_phone := phone r;
     PopupUI.pd_website := website r;
     PopupUI.pd_hours := hours r |}.

(** [parseSearchQuery(query)] *)
Definition parseSearchQuery (query : string) : string :=
  let q := toLowerCase query in
  if includes q "hospital" then "hospital"
  else if includes q "pharmacy" then "pharmacy"
  else if includes q "clinic" then "clinic"
  else if includes q "restaurant" then "restaurant"
  else if includes q "gas" || includes q "fuel" then "fuel"
  else if includes q "bank" then "bank"
  else if includes q "school" then "school"
  else if includes q "hotel" then "hotel"
  else if includes q "shop" || includes q "store" then "shop"
  else "amenity".

(** [clearSearchMarkers()] *)
Definition clearSearchMarkers : Session unit :=
  s <- get ;;
  forEach (fun m => onMap "removeLayer" (MarkerRemove m)) (markers s) ;;;
  setMarkers [].

(** The body of the [results.forEach] of [search]:
    [L.marker([lat, lng]).addTo(this.map)] calls [this.map.addLayer], the
    popup markup is built next, and the marker is pushed last. *)
Definition placeMarker (result : SearchResult) : Session unit :=
  if truthyOptNum (res_lat result) && truthyOptNum (res_lng result) then
    match res_lat result, res_lng result with
    | Some la, Some ln =>
        onMap "addLayer" (MarkerAdd la ln) ;;;
        content <- PopupUI.createSearchResultPopup result ;;
        tell (Leaflet (MarkerBindPopup la ln content)) ;;;
        s <- get ;;
        setMarkers (markers s ++ [{| mk_lat := la; mk_lng := ln; mk_popup := content |}])%list
    | _, _ => ret tt
    end
  else ret tt.

(** [this.map.fitBounds(new L.featureGroup(this.markers).getBounds().pad(0.1))].
    In the map library the bounds of a group without layers have no corners,
    and padding them reads a corner: a [TypeError]. *)
Definition fitToMarkers : Session unit :=
  s <- get ;;
  match leafletMap s with
  | None => throw (TypeError "Cannot read properties of null (reading 'fitBounds')")
  | Some _ =>
      match markers s with
      | [] => throw (TypeError "Cannot read properties of undefined (reading 'lat')")
      | _ :: _ => tell (Leaflet (MapFitBounds (markers s)))
      end
  end.

Record SearchOptions := {
  so_center : option LatLng;
  so_radius : option Q
}.

(** [search], up to its [await]: the request parameters.  [viewCenter] is
    what [this.map.getCenter()] answers when it is asked. *)
Definition search_begin (viewCenter : LatLng) (query : string) (opts : SearchOptions)
  : Session ApiManager.SearchParams :=
  s <- get ;;
  center <-
    match so_center opts with
    | Some c => ret c
    | None =>
        match leafletMap s with
        | Some _ => ret viewCenter
        | None => throw (TypeError "Cannot read properties of null (reading 'getCenter')")
        end
    end ;;
  let radius :=
    match so_radius opts with
    | Some r => if truthyNum r then r else (3000 # 1)%Q
    | None => (3000 # 1)%Q
    end in
  let type := parseSearchQuery query in
  ret {| ApiManager.sp_lat := lat center;
         ApiManager.sp_lng := lng center;
         ApiManager.sp_type := Some type;
         ApiManager.sp_radius := Some radius |}.

(** [search], from its [await] to the end of the [try] block. *)
Definition search_resume (query : string) (found : list SearchResult)
  : Session (list SearchResult) :=
  clearSearchMarkers ;;;
  forEach placeMarker found ;;;
  (match found with
   | [] => ret tt
   | _ :: _ => fitToMarkers
   end) ;;;
  emit "search" (OnSearch query found) ;;;
  ret found.

(** The [catch] block of [search]. *)
Definition search_catch (query : string) (error : exn) : Session (list SearchResult) :=
  tell (ConsoleError "Search error:" error) ;;;
  emit "searchError" (OnSearchError query error) ;;;
  ret [].

(** [search(query, options)] *)
Definition search (net : network) (viewCenter : LatLng) (query : string)
    (opts : SearchOptions) : Session (list SearchResult) :=
  tryCatch
    (params <- search_begin viewCenter query opts ;;
     s <- get ;;
     found <- ApiManager.searchPlaces net (apiKey (options s)) params ;;
     search_resume query found)
    (search_catch query).

(** What runs when the answer [found] of a search that is waiting for its
    request arrives: the rest of the [try] block under its [catch]. *)
Definition search_settle (query : string) (found : list SearchResult)
  : Session (list SearchResult) :=
  tryCatch (search_resume query found) (search_catch query).

(** [handleMapClick], up to its [try]: the loading popup is opened on
    [this.map].  [popup] is the identity of the popup object. *)
Definition handleMapClick_begin (popup : nat) (at_ : LatLng) : Session unit :=
  onMap "hasLayer" (PopupOpen popup at_ PopupUI.createLoadingContent).

(** [handleMapClick], from its [await] to the end of the [try] block. *)
Definition handleMapClick_resume (popup : nat) (at_ : LatLng) (placeData : PlaceData)
  : Session unit :=
  let formattedData := formatPlaceData placeData (lat at_) (lng at_) in
  content <- PopupUI.createPopupContent (asPopupData formattedData) ;;
  tell (Leaflet (PopupSetContent popup content)) ;;;
  emit "placeClick" (OnPlaceClick at_ formattedData).

(** The [catch] block of [handleMapClick]. *)
Definition handleMapClick_catch (popup : nat) (error : exn) : Session unit :=
  tell (ConsoleError "Error handling map click:" error) ;;;
  tell (Leaflet (PopupSetContent popup PopupUI.createErrorContent)).

(** [handleMapClick(e)] with [e.latlng = at_] *)
Definition handleMapClick (net : network) (popup : nat) (at_ : LatLng) : Session unit :=
  handleMapClick_begin popup at_ ;;;
  tryCatch
    (placeData <- ApiManager.getPlaceDetails net (lat at_) (lng at_) ;;
     handleMapClick_resume popup at_ placeData)
    (handleMapClick_catch popup).

(** What runs when the place details of a click that is waiting for them
    arrive. *)
Definition handleMapClick_settle (popup : nat) (at_ : LatLng) (placeData : PlaceData)
  : Session unit :=
  tryCatch (handleMapClick_resume popup at_ placeData) (handleMapClick_catch popup).

(** The names every object inherits, for which [this.layers[layerName]] is
    not [undefined] although the constructor wrote no such key. *)
Definition inheritedKeys : list string :=
  [ "constructor"; "hasOwnProperty"; "isPrototypeOf"; "propertyIsEnumerable";
    "toLocaleString"; "toString"; "valueOf"; "__proto__";
    "__defineGetter__"; "__defineSetter__"; "__lookupGetter__"; "__lookupSetter__" ].

Fixpoint ownLayer (table : list (string * LayerConfig)) (key : string) : option LayerConfig :=
  match table with
  | [] => None
  | (k, cfg) :: rest => if String.eqb k key then Some cfg else ownLayer rest key
  end.

(** [this.layers[layerName]]: the url and attribution of what is found
    ([undefined] for an inherited value, which has neither), or [None]. *)
Definition layerLookup (key : string) : option (jsval * jsval) :=
  match ownLayer layers key with
  | Some cfg => Some (JStr (url cfg), JStr (attribution cfg))
  | None =>
      if existsb (String.eqb key) inheritedKeys
      then Some (JUndefined, JUndefined)
      else None
  end.

(** [setLayer(layerName)] *)
Definition setLayer (layerName : string) : Session unit :=
  layerName <-
    match layerLookup layerName with
    | Some _ => ret layerName
    | None =>
        tell (ConsoleWarn ("Layer '" ++ layerName ++ "' not found, using 'plain'")) ;;;
        ret "plain"
    end ;;
  s <- get ;;
  match currentLayer s with
  | Some (u, a) => onMap "removeLayer" (TileLayerRemove u a)
  | None => ret tt
  end ;;;
  let layerConfig := default (JUndefined, JUndefined) (layerLookup layerName) in
  onMap "addLayer" (TileLayerAdd (fst layerConfig) (snd layerConfig)) ;;;
  setCurrentLayer (Some layerConfig) ;;;
  emit "layerChange" (OnLayerChange layerName).

(** [addLayerControl()] *)
Definition addLayerControl : Session unit :=
  onMap "addControl" (LayerControlAdd (List.map (fun e => layerName (snd e)) layers)).

(** [setView(center, zoom)] *)
Definition setView (center : LatLng) (zoom : Q) : Session unit :=
  onMap "setView" (MapSetView center zoom) ;;;
  emit "viewChange" (OnViewChange center zoom).

(** [showPopup(lat, lng, content)] *)
Definition showPopup (popup : nat) (lat lng : Q) (content : string) : Session unit :=
  onMap "hasLayer" (PopupOpen popup {| lat := lat; lng := lng |} content).

(** [getLeafletMap()] *)
Definition getLeafletMap : Session (option string) :=
  s <- get ;; ret (leafletMap s).

(** What the page offers when a session starts: whether the map library
    is loaded, and what [L.map(containerId)] throws, if anything (the
    container is missing, or already holds a map). *)
Record Page := {
  leafletLoaded : bool;
  hasElement : string -> bool;
  createMapFails : string -> option exn
}.

(** [initialize()] *)
Definition initialize (page : Page) : Session unit :=
  tryCatch
    (s <- get ;;
     (if negb (leafletLoaded page)
      then throw (Error "Leaflet library is required. Please include Leaflet before MapifyOS SDK.")
      else ret tt) ;;;
     match createMapFails page (containerId s) with
     | Some e => throw e
     | None => tell (Leaflet (MapCreate (containerId s) (center (options s)) (zoom (options s))))
     end ;;;
     setLeafletMap (Some (containerId s)) ;;;
     setLayer (layer (options s)) ;;;
     (if enableLayerControl (options s) then addLayerControl else ret tt) ;;;
     emit "ready" OnReady)
    (fun error =>
       tell (ConsoleError "Map initialization error:" error) ;;;
       throw error).

(** [destroy()] *)
Definition destroy : Session unit :=
  s <- get ;;
  match leafletMap s with
  | Some _ =>
      clearSearchMarkers ;;;
      onMap "remove" MapRemove ;;;
      setLeafletMap None
  | None => ret tt
  end ;;;
  setEventListeners ∅.

End MapManager.

(** ** MapifyOS: the facade *)

Module MapifyOS.

Local Open Scope string_scope.

Import MapManager.

(** [this.instances], a [Map] from container id to session: its entries in
    insertion order. *)
Record Facade := { instances : list (string * MapManager) }.

(** [new MapifyOS()] *)
Definition new : Facade := {| instances := [] |}.

(** [map.get(key)] *)
Fixpoint mapGet (key : string) (entries : list (string * MapManager)) : option MapManager :=
  match entries with
  | [] => None
  | (k, v) :: rest => if String.eqb k key then Some v else mapGet key rest
  end.

(** [map.set(key, value)]: an entry that exists keeps its place. *)
Fixpoint mapSet (key : string) (value : MapManager) (entries : list (string * MapManager))
  : list (string * MapManager) :=
  match entries with
  | [] => [(key, value)]
  | (k, v) :: rest =>
      if String.eqb k key then (k, value) :: rest else (k, v) :: mapSet key value rest
  end.

(** [map.delete(key)] *)
Fixpoint mapDelete (key : string) (entries : list (string * MapManager))
  : list (string * MapManager) :=
  match entries with
  | [] => []
  | (k, v) :: rest => if String.eqb k key then rest else (k, v) :: mapDelete key rest
  end.

(** A method call on the session object stored under [key]: the registry
    holds a reference, so what the call changes is seen through it. *)
Definition onInstance {A} (key : string) (mgr : MapManager) (m : Session A) : M Facade A :=
  fun f =>
    match m mgr with
    | (mgr', t, r) => ({| instances := mapSet key mgr' (instances f) |}, t, r)
    end.

(** A method call on a session object that the registry does not hold. *)
Definition onFresh {A} (mgr : MapManager) (m : Session A) : M Facade (MapManager * A) :=
  fun f =>
    match m mgr with
    | (mgr', t, inl e) => (f, t, inl e)
    | (mgr', t, inr a) => (f, t, inr (mgr', a))
    end.

(** The [options] object of [init]; a field is [None] or [JUndefined] when
    the caller left it out. *)
Record InitOptions := {
  io_apiKey : jsval;
  io_center : option LatLng;
  io_zoom : option Q;
  io_layer : jsval;
  io_enableSearch : option bool;
  io_enableLayerControl : option bool
}.

(** [x !== false] *)
Definition notFalse (b : option bool) : bool :=
  match b with Some false => false | _ => true end.

(** [init(containerId, options)]; the result is the [map] field of the
    object it returns. *)
Definition init (page : Page) (net : network) (containerId : string) (opts : InitOptions)
  : M Facade (option string) :=
  tryCatch
    ((if String.eqb containerId "" then throw (Error "Container ID is required") else ret tt) ;;;
     key <-
       match io_apiKey opts with
       | JStr k => if truthy (JStr k) then ret k else throw (Error "API key is required")
       | _ => throw (Error "API key is required")
       end ;;
     (if hasElement page containerId then ret tt
      else throw (Error ("Container with ID '" ++ containerId ++ "' not found"))) ;;;
     isValid <- ApiManager.verifyApiKey net key ;;
     (if isValid then ret tt else throw (Error "Invalid or inactive API key")) ;;;
     let mapManager :=
       MapManager.new containerId
         {| center := default {| lat := (205937 # 10000)%Q; lng := (789629 # 10000)%Q |}
                              (io_center opts);
            zoom := match io_zoom opts with
                    | Some z => if truthyNum z then z else (5 # 1)%Q
                    | None => (5 # 1)%Q
                    end;
            layer := match or (io_layer opts) (JStr "plain") with
                     | JStr l => l
                     | _ => "plain"
                     end;
            enableSearch := notFalse (io_enableSearch opts);
            enableLayerControl := notFalse (io_enableLayerControl opts);
            apiKey := key |} in
     started <- onFresh mapManager (MapManager.initialize page) ;;
     f <- get ;;
     put {| instances := mapSet containerId (fst started) (instances f) |} ;;;
     ret (leafletMap (fst started)))
    (fun error =>
       tell (ConsoleError "MapifyOS initialization error:" error) ;;;
       throw error).

(** [search(containerId, query, options)] *)
Definition search (net : network) (viewCenter : LatLng) (containerId : string)
    (query : string) (opts : SearchOptions) : M Facade (list SearchResult) :=
  f <- get ;;
  match mapGet containerId (instances f) with
  | None => throw (Error ("Map instance '" ++ containerId ++ "' not found"))
  | Some mapInstance =>
      onInstance containerId mapInstance (MapManager.search net viewCenter query opts)
  end.

(** [getPlaceDetails(lat, lng)] *)
Definition getPlaceDetails {S} (net : network) (lat lng : Q) : M S PlaceRecord :=
  tryCatch
    (nominatimResponse <- fetch (GetNominatim lat lng) (serveNominatim net lat lng) ;;
     nominatimData <- responseJson nominatimResponse ;;
     overpassResponse <- fetch (PostOverpass lat lng) (serveOverpass net lat lng) ;;
     overpassData <- responseJson overpassResponse ;;
     relevantElement <- member overpassData "elements" ApiManager.firstElement ;;
     let tags := tagsOf relevantElement in
     nominatimData <-
       member nominatimData
         (if truthy (prop tags "name") then "display_name" else "name") (fun d => d) ;;
     ret {| name := or (prop tags "name")
                      (or (nom_name nominatimData)
                          (or (firstSegmentOf (nom_display_name nominatimData))
                              (JStr "Unnamed Location")));
            address := or (nom_display_name nominatimData) (JStr "Address not available");
            type := or (prop tags "amenity")
                      (or (prop tags "shop")
                          (or (prop tags "office")
                              (or (prop tags "building") (JStr "Building"))));
            phone := or (prop tags "phone")
                       (or (prop tags "contact:phone") (JStr "Not available"));
            website := or (prop tags "website")
                         (or (prop tags "contact:website") (or (prop tags "url") JNull));
            hours := or (prop tags "opening_hours") (JStr "Not available");
            coordinates := {| lat := lat; lng := lng |} |})
    (fun error =>
       tell (ConsoleError "Error fetching place details:" error) ;;;
       ret {| name := JStr "Unknown Location";
              address := JStr "Address not available";
              type := JStr "Location";
              phone := JStr "Not available";
              website := JNull;
              hours := JStr "Not available";
              coordinates := {| lat := lat; lng := lng |} |}).

(** [showPopup(containerId, lat, lng, data)] *)
Definition showPopup (popup : nat) (containerId : string) (lat lng : Q)
    (data : PopupUI.PopupData) : M Facade unit :=
  f <- get ;;
  match mapGet containerId (instances f) with
  | None => throw (Error ("Map instance '" ++ containerId ++ "' not found"))
  | Some mapInstance =>
      content <- PopupUI.createPopupContent data ;;
      onInstance containerId mapInstance (MapManager.showPopup popup lat lng content)
  end.

(** [destroy(containerId)] *)
Definition destroy (containerId : string) : M Facade unit :=
  f <- get ;;
  match mapGet containerId (instances f) with
  | Some mapInstance =>
      onInstance containerId mapInstance MapManager.destroy ;;;
      f' <- get ;;
      put {| instances := mapDelete containerId (instances f') |}
  | None => ret tt
  end.

(** [getVersion()] *)
Definition getVersion : string := "1.0.0".

(** [getInstances()] *)
Definition getInstances (f : Facade) : list string := List.map fst (instances f).

End MapifyOS.

(** * Verified properties *)

(** ** Characters and strings *)

Section StringFacts.

Local Open Scope string_scope.

Ltac by_cases_on_char c :=
  destruct c as [[] [] [] [] [] [] [] []]; try reflexivity; try discriminate.

Lemma toUpperChar_word (c : ascii) : isWordChar (toUpperChar c) = isWordChar c.
Proof. by_cases_on_char c. Qed.

Lemma toUpperChar_not_lower (c : ascii) : isLower (toUpperChar c) = false.
Proof. by_cases_on_char c. Qed.

Lemma toUpperChar_not_underscore (c : ascii) :
  Ascii.eqb c "_" = false -> Ascii.eqb (toUpperChar c) "_" = false.
Proof. by_cases_on_char c. Qed.

Lemma length_replaceUnderscores (s : string) :
  String.length (replaceUnderscores s) = String.length s.
Proof. induction s as [|c s IH]; simpl; [reflexivity | now rewrite IH]. Qed.

Lemma length_capitalizeFrom (prev : bool) (s : string) :
  String.length (capitalizeFrom prev s) = String.length s.
Proof.
  revert prev; induction s as [|c s IH]; intros prev; simpl; [reflexivity|].
  now rewrite IH.
Qed.

(** No character of [s] is an underscore. *)
Fixpoint noUnderscore (s : string) : bool :=
  match s with
  | EmptyString => true
  | String c rest => negb (Ascii.eqb c "_") && noUnderscore rest
  end.

(** Every character of [s] that starts a word (a word character with no
    word character before it) is not a small letter; [prev] tells whether
    a word character stands just before [s]. *)
Fixpoint wordsCapitalized (prev : bool) (s : string) : bool :=
  match s with
  | EmptyString => true
  | String c rest =>
      (if isWordChar c && negb prev then negb (isLower c) else true)
      && wordsCapitalized (isWordChar c) rest
  end.

Lemma noUnderscore_replaceUnderscores (s : string) :
  noUnderscore (replaceUnderscores s) = true.
Proof.
  induction s as [|c s IH]; simpl; [reflexivity|].
  rewrite IH, andb_true_r.
  destruct (Ascii.eqb c "_") eqn:E; [reflexivity | now rewrite E].
Qed.

Lemma noUnderscore_capitalizeFrom (prev : bool) (s : string) :
  noUnderscore s = true -> noUnderscore (capitalizeFrom prev s) = true.
Proof.
  revert prev; induction s as [|c s IH]; intros prev; simpl; [reflexivity|].
  intros H. apply andb_true_iff in H as [Hc Hs].
  rewrite (IH _ Hs), andb_true_r.
  apply negb_true_iff in Hc.
  destruct (isWordChar c && negb prev).
  - now rewrite (toUpperChar_not_underscore _ Hc).
  - now rewrite Hc.
Qed.

Lemma wordsCapitalized_capitalizeFrom (prev : bool) (s : string) :
  wordsCapitalized prev (capitalizeFrom prev s) = true.
Proof.
  revert prev; induction s as [|c s IH]; intros prev; simpl; [reflexivity|].
  destruct (isWordChar c) eqn:W, prev; simpl;
    rewrite ?toUpperChar_word, ?W; simpl;
    rewrite ?toUpperChar_not_lower; simpl; apply IH.
Qed.

End StringFacts.

(** ** Presence of a value

    A value is present when it is a string that is not empty: that is what
    the [||] chains of the code test.  [undefined], [null] and the empty
    string are absent. *)

Definition present (x : jsval) (v : string) : Prop := x = JStr v /\ v <> "".

Definition absent (x : jsval) : Prop := forall v, ~ present x v.

Lemma truthy_present (x : jsval) :
  truthy x = true <-> exists v, present x v.
Proof.
  unfold present; split.
  - destruct x as [| |s]; simpl; try discriminate.
    intros H; exists s; split; [reflexivity|].
    intros ->; discriminate.
  - intros (v & -> & Hv); simpl.
    destruct (String.eqb_spec v ""); [contradiction | reflexivity].
Qed.

Lemma truthy_absent (x : jsval) : truthy x = false <-> absent x.
Proof.
  split.
  - intros H v Hp.
    assert (truthy x = true) by (apply truthy_present; eauto). congruence.
  - intros H. destruct (truthy x) eqn:E; [|reflexivity].
    apply truthy_present in E as [v Hv]. destruct (H v Hv).
Qed.

Lemma or_present (a b : jsval) (v : string) : present a v -> or a b = JStr v.
Proof.
  intros Hp. unfold or.
  assert (truthy a = true) as -> by (apply truthy_present; eauto).
  apply Hp.
Qed.

Lemma or_absent (a b : jsval) : absent a -> or a b = b.
Proof. intros Ha. unfold or. apply truthy_absent in Ha. now rewrite Ha. Qed.

Lemma prop_present (tags : TagBag) (k v : string) :
  present (prop tags k) v <-> tags !! k = Some v /\ v <> "".
Proof.
  unfold present, prop.
  destruct (tags !! k) as [w|]; split; intros [H1 H2]; split; congruence.
Qed.

Lemma prop_absent (tags : TagBag) (k : string) :
  absent (prop tags k) <-> tags !! k = None \/ tags !! k = Some "".
Proof.
  unfold absent, present, prop. destruct (tags !! k) as [w|]; split.
  - intros H. right. destruct (string_dec w "") as [->|Hw]; [reflexivity|].
    destruct (H w); auto.
  - intros [H|H] v [H1 H2]; congruence.
  - auto.
  - intros _ v [H1 H2]; congruence.
Qed.

(** ** The category formatter *)

Section CategoryFormatter.

Import MapManager.

Local Open Scope string_scope.

(** The candidate keys, in the order [formatCategory] visits them. *)
Definition categoryKeys : list string :=
  ["amenity"; "shop"; "building"; "leisure"; "tourism"; "highway"; "office"; "craft"].

(** The display form of a tag value. *)
Definition formatTagValue (v : string) : string :=
  capitalizeWords (replaceUnderscores v).

Lemma categoryMap_keys (tags : TagBag) :
  categoryMap tags = List.map (fun k => (k, prop tags k)) categoryKeys.
Proof. reflexivity. Qed.

Lemma firstCategory_skip (skipped rest : list (string * jsval)) :
  Forall (fun e => absent (snd e)) skipped ->
  firstCategory (skipped ++ rest) = firstCategory rest.
Proof.
  induction 1 as [|[k x] l Hx Hl IH]; simpl; [reflexivity|].
  apply truthy_absent in Hx; simpl in Hx.
  destruct x as [| |s]; try exact IH. now rewrite Hx.
Qed.

Lemma firstCategory_hit (k v : string) (rest : list (string * jsval)) :
  v <> "" -> firstCategory ((k, JStr v) :: rest) = formatTagValue v.
Proof.
  intros Hv; simpl.
  destruct (String.eqb_spec v ""); [contradiction | reflexivity].
Qed.

Lemma formatCategory_first_present (tags : TagBag) (before after : list string)
    (k v : string) :
  categoryKeys = (before ++ k :: after)%list ->
  Forall (fun k' => absent (prop tags k')) before ->
  present (prop tags k) v ->
  formatCategory (Some tags) = formatTagValue v.
Proof.
  intros Hkeys Hbefore [Hk Hv].
  unfold formatCategory. rewrite categoryMap_keys, Hkeys, map_app. simpl.
  rewrite firstCategory_skip.
  - rewrite Hk. now apply firstCategory_hit.
  - apply Forall_map. exact Hbefore.
Qed.

Lemma formatCategory_none_present (tags : TagBag) :
  Forall (fun k => absent (prop tags k)) categoryKeys ->
  formatCategory (Some tags) = "Location".
Proof.
  intros H. unfold formatCategory. rewrite categoryMap_keys.
  rewrite <- (app_nil_r (List.map _ categoryKeys)).
  rewrite firstCategory_skip; [reflexivity|].
  apply Forall_map. exact H.
Qed.

Lemma formatTagValue_shape (v : string) :
  String.length (formatTagValue v) = String.length v
  /\ noUnderscore (formatTagValue v) = true
  /\ wordsCapitalized false (formatTagValue v) = true.
Proof.
  unfold formatTagValue, capitalizeWords. repeat split.
  - now rewrite length_capitalizeFrom, length_replaceUnderscores.
  - apply noUnderscore_capitalizeFrom, noUnderscore_replaceUnderscores.
  - apply wordsCapitalized_capitalizeFrom.
Qed.

(** C5.  The category formatter visits the keys amenity, shop, building,
    leisure, tourism, highway, office, craft in that order; it returns the
    display form of the first value that is present (a string that is not
    empty), whatever the keys after it hold; it returns "Location" when no
    candidate key has a value.  The display form of a value has as many
    characters as the value, holds no underscore, and each of its words
    starts with a character that is not a small letter.  A bag in which
    amenity is absent and shop is "convenience_store" gives
    "Convenience Store". *)
Theorem formatCategory_priority (tags : TagBag) :
  List.map fst (categoryMap tags) = categoryKeys
  /\ (forall before k after v,
        categoryKeys = (before ++ k :: after)%list ->
        Forall (fun k' => absent (prop tags k')) before ->
        present (prop tags k) v ->
        formatCategory (Some tags) = formatTagValue v)
  /\ (Forall (fun k => absent (prop tags k)) categoryKeys ->
      formatCategory (Some tags) = "Location")
  /\ (forall v,
        String.length (formatTagValue v) = String.length v
        /\ noUnderscore (formatTagValue v) = true
        /\ wordsCapitalized false (formatTagValue v) = true)
  /\ (absent (prop tags "amenity") ->
      tags !! "shop" = Some "convenience_store" ->
      formatCategory (Some tags) = "Convenience Store").
Proof.
  split; [reflexivity|].
  split; [intros; eapply formatCategory_first_present; eauto|].
  split; [apply formatCategory_none_present|].
  split; [apply formatTagValue_shape|].
  intros Ha Hs.
  rewrite (formatCategory_first_present tags ["amenity"] ["building"; "leisure";
             "tourism"; "highway"; "office"; "craft"] "shop" "convenience_store").
  - reflexivity.
  - reflexivity.
  - repeat constructor. exact Ha.
  - apply prop_present. split; [exact Hs | discriminate].
Qed.

End CategoryFormatter.

(** ** The place resolver: [formatPlaceData] *)

Section PlaceResolver.

Import MapManager.

Local Open Scope string_scope.

Variables (placeData : PlaceData) (lat lng : Q).

Let tags : TagBag := tagsOf (overpass placeData).
Let shortName : jsval := nominatimName (nominatim placeData).
Let displayName : jsval := nominatimDisplayName (nominatim placeData).
Let resolved : PlaceRecord := formatPlaceData placeData lat lng.

(** C6.  The name is the tag bag's "name" value when it is present; else the
    geocode short name when present; else the first comma-segment of the
    geocode display string when that segment is present; else the literal
    "Unknown Location".  Present means a string that is not empty, so each
    tier is used exactly when every tier before it is absent and it is
    present itself, and the literal exactly when all three are absent. *)
Theorem name_precedence :
  (forall v, present (prop tags "name") v -> name resolved = JStr v)
  /\ (forall v, absent (prop tags "name") -> present shortName v ->
        name resolved = JStr v)
  /\ (forall v, absent (prop tags "name") -> absent shortName ->
        present (firstSegmentOf displayName) v ->
        name resolved = JStr v)
  /\ (absent (prop tags "name") -> absent shortName ->
      absent (firstSegmentOf displayName) ->
      name resolved = JStr "Unknown Location")
  /\ (forall d, displayName = JStr d ->
        firstSegmentOf displayName = JStr (firstCommaSegment d))
  /\ (nullish displayName = true -> absent (firstSegmentOf displayName)).
Proof.
  subst resolved tags shortName displayName; unfold formatPlaceData; simpl.
  repeat split.
  - intros v H. now apply or_present.
  - intros v H1 H2. rewrite (or_absent _ _ H1). now apply or_present.
  - intros v H1 H2 H3.
    rewrite (or_absent _ _ H1), (or_absent _ _ H2). now apply or_present.
  - intros H1 H2 H3.
    now rewrite (or_absent _ _ H1), (or_absent _ _ H2), (or_absent _ _ H3).
  - intros d ->. reflexivity.
  - intros H v [Hv _].
    destruct (nominatimDisplayName (nominatim placeData)); discriminate.
Qed.

(** C7.  The phone is the first present value among the keys "phone" and
    "contact:phone", else "Not available"; the hours are the
    "opening_hours" value, else "Not available"; the website is the first
    present value among "website", "contact:website" and "url", else
    [null], which is no string at all. *)
Theorem contact_precedence :
  (forall v, present (prop tags "phone") v -> phone resolved = JStr v)
  /\ (forall v, absent (prop tags "phone") -> present (prop tags "contact:phone") v ->
        phone resolved = JStr v)
  /\ (absent (prop tags "phone") -> absent (prop tags "contact:phone") ->
      phone resolved = JStr "Not available")
  /\ (forall v, present (prop tags "opening_hours") v -> hours resolved = JStr v)
  /\ (absent (prop tags "opening_hours") -> hours resolved = JStr "Not available")
  /\ (forall v, present (prop tags "website") v -> website resolved = JStr v)
  /\ (forall v, absent (prop tags "website") -> present (prop tags "contact:website") v ->
        website resolved = JStr v)
  /\ (forall v, absent (prop tags "website") -> absent (prop tags "contact:website") ->
        present (prop tags "url") v ->
        website resolved = JStr v)
  /\ (absent (prop tags "website") -> absent (prop tags "contact:website") ->
      absent (prop tags "url") ->
      website resolved = JNull /\ isString (website resolved) = false).
Proof.
  subst resolved tags; unfold formatPlaceData; simpl.
  repeat split.
  - intros v H. now apply or_present.
  - intros v H1 H2. rewrite (or_absent _ _ H1). now apply or_present.
  - intros H1 H2. now rewrite (or_absent _ _ H1), (or_absent _ _ H2).
  - intros v H. now apply or_present.
  - intros H. now rewrite (or_absent _ _ H).
  - intros v H. now apply or_present.
  - intros v H1 H2. rewrite (or_absent _ _ H1). now apply or_present.
  - intros v H1 H2 H3.
    rewrite (or_absent _ _ H1), (or_absent _ _ H2). now apply or_present.
  - now rewrite (or_absent _ _ H), (or_absent _ _ H0), (or_absent _ _ H1).
  - now rewrite (or_absent _ _ H), (or_absent _ _ H0), (or_absent _ _ H1).
Qed.

End PlaceResolver.

Example name_falls_to_first_segment :
  name (MapManager.formatPlaceData
          {| nominatim := Some {| nom_name := JStr "";
                                  nom_display_name := JStr "12 High Street, Leeds, UK" |};
             overpass := None |} 0 0)
  = JStr "12 High Street".
Proof. reflexivity. Qed.

(** ** Reading a trace *)

(** The value a computation returned, if it did not throw. *)
Definition returned {A} (r : exn + A) : option A :=
  match r with inr a => Some a | inl _ => None end.

(** The subscribers called for [event], in the order they were called. *)
Fixpoint notified (event : string) (t : list effect) : list callback :=
  match t with
  | [] => []
  | Invoke cb ev _ :: rest =>
      if String.eqb ev event then cb :: notified event rest else notified event rest
  | _ :: rest => notified event rest
  end.

(** The requests sent, in order. *)
Fixpoint fetches (t : list effect) : list request :=
  match t with
  | [] => []
  | Fetch r :: rest => r :: fetches rest
  | _ :: rest => fetches rest
  end.

(** The calls made into the map library, in order. *)
Fixpoint leafletCalls (t : list effect) : list leafletCall :=
  match t with
  | [] => []
  | Leaflet c :: rest => c :: leafletCalls rest
  | _ :: rest => leafletCalls rest
  end.

(** What delivering [event] to [listeners] leaves in the trace. *)
Definition deliveries (event : string) (data : payload) (listeners : list callback)
  : list effect :=
  flat_map
    (fun cb =>
       Invoke cb event data ::
       match cb_throws cb with
       | Some error =>
           [ConsoleError ("Error in event listener for '" ++ event ++ "':")%string error]
       | None => []
       end)
    listeners.

Lemma notified_app (event : string) (t1 t2 : list effect) :
  notified event (t1 ++ t2) = notified event t1 ++ notified event t2.
Proof.
  induction t1 as [|e t1 IH]; simpl; [reflexivity|].
  destruct e; try exact IH.
  destruct (String.eqb event0 event); simpl; now rewrite IH.
Qed.


Lemma leafletCalls_app (t1 t2 : list effect) :
  leafletCalls (t1 ++ t2) = leafletCalls t1 ++ leafletCalls t2.
Proof.
  induction t1 as [|e t1 IH]; simpl; [reflexivity|].
  destruct e; simpl; now rewrite ?IH.
Qed.

Lemma leafletCalls_removes (ms : list marker) :
  leafletCalls (List.map (fun m => Leaflet (MarkerRemove m)) ms)
  = List.map MarkerRemove ms.
Proof. induction ms as [|m l IH]; simpl; [reflexivity | now rewrite IH]. Qed.

Lemma notified_removes (event : string) (ms : list marker) :
  notified event (List.map (fun m => Leaflet (MarkerRemove m)) ms) = [].
Proof. induction ms as [|m l IH]; simpl; [reflexivity | exact IH]. Qed.

Lemma notified_deliveries (event event' : string) (data : payload)
    (listeners : list callback) :
  notified event' (deliveries event data listeners)
  = if String.eqb event event' then listeners else [].
Proof.
  induction listeners as [|cb l IH]; simpl.
  - now destruct (String.eqb event event').
  - destruct (cb_throws cb); simpl; rewrite ?notified_app in *; simpl;
      destruct (String.eqb event event'); simpl; now rewrite ?IH.
Qed.


Lemma leafletCalls_deliveries (event : string) (data : payload)
    (listeners : list callback) :
  leafletCalls (deliveries event data listeners) = [].
Proof.
  induction listeners as [|cb l IH]; simpl; [reflexivity|].
  destruct (cb_throws cb); simpl; exact IH.
Qed.

(** ** Running the monad *)

Section MonadFacts.

Context {S : Type}.

Lemma bind_inr {A B} (m : M S A) (k : A -> M S B) (s s1 : S) (t1 : list effect) (a : A) :
  m s = (s1, t1, inr a) ->
  bind m k s = (stateOf (k a s1), t1 ++ traceOf (k a s1), resultOf (k a s1)).
Proof.
  intros H. unfold bind, stateOf, traceOf, resultOf. rewrite H.
  now destruct (k a s1) as [[s2 t2] r].
Qed.

Lemma bind_inl {A B} (m : M S A) (k : A -> M S B) (s s1 : S) (t1 : list effect) (e : exn) :
  m s = (s1, t1, inl e) -> bind m k s = (s1, t1, inl e).
Proof. intros H. unfold bind. now rewrite H. Qed.

Lemma tryCatch_inr {A} (m : M S A) (h : exn -> M S A) (s s1 : S) (t1 : list effect) (a : A) :
  m s = (s1, t1, inr a) -> tryCatch m h s = (s1, t1, inr a).
Proof. intros H. unfold tryCatch. now rewrite H. Qed.

Lemma tryCatch_inl {A} (m : M S A) (h : exn -> M S A) (s s1 : S) (t1 : list effect) (e : exn) :
  m s = (s1, t1, inl e) ->
  tryCatch m h s = (stateOf (h e s1), t1 ++ traceOf (h e s1), resultOf (h e s1)).
Proof.
  intros H. unfold tryCatch, stateOf, traceOf, resultOf. rewrite H.
  now destruct (h e s1) as [[s2 t2] r].
Qed.

Lemma forEach_steady {A} (f : A -> M S unit) (g : A -> list effect) (xs : list A) (s : S) :
  (forall x, In x xs -> f x s = (s, g x, inr tt)) ->
  forEach f xs s = (s, flat_map g xs, inr tt).
Proof.
  induction xs as [|x xs IH]; intros H; simpl; [reflexivity|].
  unfold bind. rewrite (H x (or_introl eq_refl)).
  rewrite IH by (intros y Hy; apply H; now right).
  reflexivity.
Qed.

End MonadFacts.

(** ** Events *)

Section Events.

Import MapManager.

Local Open Scope string_scope.

Lemma emit_run (event : string) (data : payload) (s : MapManager) :
  emit event data s
  = (s, deliveries event data (default [] (eventListeners s !! event)), inr tt).
Proof.
  unfold emit, bind, get.
  destruct (eventListeners s !! event) as [listeners|]; simpl; [|reflexivity].
  rewrite (forEach_steady _
             (fun cb => Invoke cb event data ::
                match cb_throws cb with
                | Some error =>
                    [ConsoleError ("Error in event listener for '" ++ event ++ "':") error]
                | None => []
                end)).
  - reflexivity.
  - intros cb _. unfold bind, tell. destruct (cb_throws cb); reflexivity.
Qed.

End Events.

(** ** The place-resolution pipeline *)

Section Pipeline.

Import MapManager.

Local Open Scope string_scope.

Context {S : Type}.

(** What a click runs to resolve a place: the two lookups, then the
    merge. *)
Definition resolvePlace (net : network) (lat lng : Q) : M S PlaceRecord :=
  placeData <- ApiManager.getPlaceDetails net lat lng ;;
  ret (formatPlaceData placeData lat lng).

(** The lookup did not give a JSON document: the request failed or the
    body could not be parsed. *)
Definition lookupFails {A} (reply : option (response A)) : bool :=
  match reply with
  | None => true
  | Some r => match body r with JsonInvalid => true | _ => false end
  end.

(** The lookup gave no object to read: it failed or answered [null]. *)
Definition lookupUnusable {A} (reply : option (response A)) : bool :=
  match reply with
  | None => true
  | Some r => match body r with JsonObject _ => false | _ => true end
  end.

(** The record in which every field is its fallback. *)
Definition fallbackRecord (lat lng : Q) : PlaceRecord :=
  {| name := JStr "Unknown Location";
     address := JStr "Address not available";
     type := JStr "Location";
     phone := JStr "Not available";
     website := JNull;
     hours := JStr "Not available";
     coordinates := {| lat := lat; lng := lng |} |}.

(** Every field holds something: a string that is not empty, or, for the
    website only, [null]. *)
Definition populated (r : PlaceRecord) : bool :=
  truthy (name r) && truthy (address r) && truthy (type r) && truthy (phone r)
  && truthy (hours r)
  && (truthy (website r) || match website r with JNull => true | _ => false end).

Lemma truthy_or (a b : jsval) : truthy b = true -> truthy (or a b) = true.
Proof. intros H. unfold or. destruct (truthy a) eqn:E; assumption. Qed.

Lemma formatTagValue_nonempty (v : string) : v <> "" -> formatTagValue v <> "".
Proof.
  intros Hv H.
  assert (L : String.length (formatTagValue v) = String.length v)
    by apply formatTagValue_shape.
  rewrite H in L. destruct v; [contradiction | discriminate].
Qed.

Lemma firstCategory_cases (entries : list (string * jsval)) :
  firstCategory entries = "Location"
  \/ exists k v, In (k, JStr v) entries /\ v <> ""
                 /\ firstCategory entries = formatTagValue v.
Proof.
  induction entries as [|[k x] l IH]; simpl; [now left|].
  assert (Hrest : firstCategory l = "Location"
                  \/ exists k0 v, ((k, x) = (k0, JStr v) \/ In (k0, JStr v) l) /\ v <> ""
                                  /\ firstCategory l = formatTagValue v).
  { destruct IH as [IH|(k0 & v & Hin & Hv & IH)]; [now left|].
    right. exists k0, v. auto. }
  destruct x as [| |s]; try exact Hrest.
  unfold truthy.
  destruct (String.eqb_spec s ""); simpl; [exact Hrest|].
  right. exists k, s. auto.
Qed.

Lemma formatCategory_nonempty (tags : option TagBag) : formatCategory tags <> "".
Proof.
  destruct tags as [t|]; unfold formatCategory; [|discriminate].
  destruct (firstCategory_cases (categoryMap t)) as [H|(k & v & _ & Hv & H)]; rewrite H.
  - discriminate.
  - now apply formatTagValue_nonempty.
Qed.

Lemma truthy_category (tags : option TagBag) :
  truthy (JStr (formatCategory tags)) = true.
Proof.
  unfold truthy.
  destruct (String.eqb_spec (formatCategory tags) "") as [E|_]; [|reflexivity].
  destruct (formatCategory_nonempty tags E).
Qed.

Lemma or_null_chain (a b c : jsval) :
  truthy (or a (or b (or c JNull)))
  || match or a (or b (or c JNull)) with JNull => true | _ => false end = true.
Proof.
  unfold or.
  destruct (truthy a) eqn:E1; [now rewrite E1|].
  destruct (truthy b) eqn:E2; [now rewrite E2|].
  destruct (truthy c) eqn:E3; [now rewrite E3|].
  reflexivity.
Qed.

Lemma formatPlaceData_populated (placeData : PlaceData) (lat lng : Q) :
  populated (formatPlaceData placeData lat lng) = true.
Proof.
  unfold populated, formatPlaceData.
  cbn [name address type phone website hours].
  rewrite truthy_category, or_null_chain.
  repeat (rewrite truthy_or by (repeat apply truthy_or; reflexivity)).
  reflexivity.
Qed.

Lemma formatPlaceData_fallback (lat lng : Q) :
  formatPlaceData {| nominatim := None; overpass := None |} lat lng
  = fallbackRecord lat lng.
Proof. reflexivity. Qed.

(** C2, as the code has it.  The pipeline never raises and leaves the
    caller's state alone: it returns a record whose seven fields are all
    populated and whose coordinates are the input's.  The two lookups share
    one failure handler: when either of them fails (or the tag query
    answers [null]) every field is its fallback, and when the reverse
    geocode fails the tag query is not sent at all. *)
Theorem resolvePlace_complete (net : network) (lat lng : Q) (s : S) :
  stateOf (resolvePlace net lat lng s) = s
  /\ exists r,
       resultOf (resolvePlace net lat lng s) = inr r
       /\ populated r = true
       /\ coordinates r = {| lat := lat; lng := lng |}
       /\ (lookupFails (serveNominatim net lat lng)
           || lookupUnusable (serveOverpass net lat lng) = true ->
           r = fallbackRecord lat lng)
       /\ (lookupFails (serveNominatim net lat lng) = true ->
           fetches (traceOf (resolvePlace net lat lng s)) = [GetNominatim lat lng])
       /\ (lookupFails (serveNominatim net lat lng) = false ->
           fetches (traceOf (resolvePlace net lat lng s))
           = [GetNominatim lat lng; PostOverpass lat lng]).
Proof.
  cbv [resolvePlace ApiManager.getPlaceDetails tryCatch bind fetch tell responseJson
       member throw ret stateOf traceOf resultOf lookupFails lookupUnusable fst snd].
  destruct (serveNominatim net lat lng) as [[o1 st1 [| |n]]|];
    destruct (serveOverpass net lat lng) as [[o2 st2 [| |d]]|];
    cbv beta iota; (split; [reflexivity|]);
    eexists; (split; [reflexivity|]);
    (split; [apply formatPlaceData_populated|]);
    (split; [reflexivity|]);
    repeat split; intros H; try discriminate H; reflexivity.
Qed.

(** The claim that a failed reverse geocode leaves the tag query running
    fails here: the reverse geocode cannot be reached, the tag query would
    have named the place, and the result carries no tag and only one
    request was sent. *)
Definition cafeOnly : network :=
  {| serveVerify := fun _ => None;
     serveSearch := fun _ _ _ _ _ => None;
     serveNominatim := fun _ _ => None;
     serveOverpass := fun _ _ =>
       Some {| ok := true; status := 200;
               body := JsonObject
                 {| elements :=
                      Some [ {| el_tags := Some (<["name" := "Cafe Roma"]>
                                                 (<["amenity" := "cafe"]> ∅)) |} ] |} |} |}.

End Pipeline.

Lemma geocode_failure_discards_tags :
  resolvePlace cafeOnly 1 2 tt
  = (tt,
     [Fetch (GetNominatim 1 2);
      ConsoleError "Error fetching place details:" NetworkError],
     inr (fallbackRecord 1 2)).
Proof. vm_compute. reflexivity. Qed.

(** ** The category of a place record *)

Section Category.

Import MapManager.

Local Open Scope string_scope.

(** X1.  The category [formatPlaceData] gives is "Location" or the display form
    of a value of the tag bag that is not empty; it is never empty and
    never holds an underscore. *)
Lemma formatPlaceData_category (placeData : PlaceData) (lat lng : Q) :
  exists c,
    type (formatPlaceData placeData lat lng) = JStr c
    /\ c <> ""
    /\ noUnderscore c = true
    /\ (c = "Location"
        \/ exists k v, In k categoryKeys
                       /\ tagsOf (overpass placeData) !! k = Some v /\ v <> ""
                       /\ c = formatTagValue v).
Proof.
  exists (formatCategory (Some (tagsOf (overpass placeData)))).
  split; [reflexivity|]. split; [apply formatCategory_nonempty|].
  unfold formatCategory.
  destruct (firstCategory_cases (categoryMap (tagsOf (overpass placeData))))
    as [H|(k & v & Hin & Hv & H)]; rewrite H.
  - split; [reflexivity | now left].
  - split; [apply formatTagValue_shape|]. right. exists k, v.
    rewrite categoryMap_keys in Hin. apply in_map_iff in Hin as (k' & Heq & Hk').
    injection Heq as <- Hp. unfold prop in Hp.
    destruct (tagsOf (overpass placeData) !! k') as [w|] eqn:E; [|discriminate].
    injection Hp as ->. auto.
Qed.

(** A tag query that answers one fast-food outlet, next to a working
    reverse geocode. *)
Definition fastFood : network :=
  {| serveVerify := fun _ => None;
     serveSearch := fun _ _ _ _ _ => None;
     serveNominatim := fun _ _ =>
       Some {| ok := true; status := 200;
               body := JsonObject {| nom_name := JStr "Burger Bar";
                                     nom_display_name := JStr "Burger Bar, Mill Lane" |} |};
     serveOverpass := fun _ _ =>
       Some {| ok := true; status := 200;
               body := JsonObject
                 {| elements := Some [ {| el_tags := Some (<["amenity" := "fast_food"]> ∅) |} ] |} |} |}.

(** C1.  On the same answers the click pipeline and the facade disagree:
    the pipeline's category is the display form "Fast Food", the facade's
    [getPlaceDetails] hands out the raw tag value "fast_food". *)
Theorem facade_category_is_raw :
  (type <$> returned (resultOf (resolvePlace fastFood 1 2 tt)) = Some (JStr "Fast Food"))
  /\ (type <$> returned (resultOf (MapifyOS.getPlaceDetails fastFood 1 2 tt))
      = Some (JStr "fast_food"))
  /\ noUnderscore "fast_food" = false.
Proof. vm_compute. repeat split. Qed.

End Category.

(** ** The popup renderer *)

Section Popup.

Import PopupUI.

Local Open Scope string_scope.

(** A record whose phone, website and address carry markup. *)
Definition hostileRecord : PopupData :=
  {| pd_name := JStr "Cafe";
     pd_address := JStr ("1 Main St" ++ dq ++ " onmouseover=" ++ dq ++ "alert(1)");
     pd_type := JStr "Location";
     pd_phone := JStr (dq ++ "><script>alert(2)</script>");
     pd_website := JStr ("javascript:alert(3)" ++ dq ++ "><b>");
     pd_hours := JStr "Not available" |}.

(** The markup a computation returned, or the empty string. *)
Definition markupOf (r : exn + string) : string :=
  match r with inr m => m | inl _ => "" end.

(** C3.  The phone, the website and the address reach attribute positions
    as they are: the [tel:] link target holds the phone unescaped, the
    website link target the website unescaped, and the copy button's
    handler the address with nothing but its single quotes changed, while
    the escaped form of each differs from it. *)
Theorem attributes_not_escaped :
  let markup := markupOf (resultOf (createPopupContent hostileRecord tt)) in
  includes markup ("<a href=" ++ dq ++ "tel:" ++ dq ++ "><script>alert(2)</script>" ++ dq)
  = true
  /\ includes markup ("<a href=" ++ dq ++ "javascript:alert(3)" ++ dq ++ "><b>" ++ dq)
     = true
  /\ includes markup ("this.copyAddress('1 Main St" ++ dq ++ " onmouseover="
                      ++ dq ++ "alert(1)', this)") = true
  /\ escapeHtml (pd_phone hostileRecord) = dq ++ "&gt;&lt;script&gt;alert(2)&lt;/script&gt;"
  /\ includes markup ("<a href=" ++ dq ++ "tel:" ++ escapeHtml (pd_phone hostileRecord) ++ dq)
     = false.
Proof. vm_compute. repeat split. Qed.

End Popup.

(** ** Markup never fails to build for the records the SDK makes *)

Section PopupTotal.

Import PopupUI.

Local Open Scope string_scope.

Context {S : Type}.

(** Building the popup succeeds, leaves the state alone and does nothing
    else, as soon as the address is a string or is left out. *)
Lemma createPopupContent_ok (data : PopupData) (s : S) :
  pd_address data <> JNull ->
  exists markup, createPopupContent data s = (s, [], inr markup).
Proof.
  intros Ha. unfold createPopupContent, bind.
  destruct (pd_address data) as [| |a]; [|contradiction|]; simpl; eauto.
Qed.

Lemma or_literal_is_string (a : jsval) (d : string) : exists v, or a (JStr d) = JStr v.
Proof.
  unfold or. destruct a as [| |v]; simpl; eauto.
  destruct (negb (String.eqb v "")); eauto.
Qed.

Lemma createSearchResultPopup_ok (result : SearchResult) (s : S) :
  exists markup, createSearchResultPopup result s = (s, [], inr markup).
Proof.
  unfold createSearchResultPopup. apply createPopupContent_ok. simpl.
  destruct (or_literal_is_string (res_address result) "Address not available") as [v ->].
  discriminate.
Qed.

End PopupTotal.

(** ** Sessions *)

Section Sessions.

Import MapManager.

Local Open Scope string_scope.

(** The session with its marker list replaced. *)
Definition withMarkers (ms : list marker) (s : MapManager) : MapManager :=
  stateOf (setMarkers ms s).

(** The marker a search result gets, when it gets one. *)
Definition markable (r : SearchResult) : bool :=
  truthyOptNum (res_lat r) && truthyOptNum (res_lng r).

Lemma withMarkers_same (s : MapManager) : withMarkers (markers s) s = s.
Proof. now destruct s. Qed.

Lemma withMarkers_twice (a b : list marker) (s : MapManager) :
  withMarkers a (withMarkers b s) = withMarkers a s.
Proof. reflexivity. Qed.

Lemma onMap_live (method : string) (c : leafletCall) (s : MapManager) :
  leafletMap s <> None -> onMap method c s = (s, [Leaflet c], inr tt).
Proof.
  intros H. unfold onMap, bind, get.
  destruct (leafletMap s); [reflexivity | contradiction].
Qed.

Lemma onMap_released (method : string) (c : leafletCall) (s : MapManager) :
  leafletMap s = None ->
  onMap method c s
  = (s, [], inl (TypeError ("Cannot read properties of null (reading '" ++ method ++ "')"))).
Proof. intros H. unfold onMap, bind, get. now rewrite H. Qed.

Lemma clearSearchMarkers_live (s : MapManager) :
  leafletMap s <> None ->
  clearSearchMarkers s
  = (withMarkers [] s, List.map (fun m => Leaflet (MarkerRemove m)) (markers s), inr tt).
Proof.
  intros H. unfold clearSearchMarkers, bind, get.
  rewrite (forEach_steady _ (fun m => [Leaflet (MarkerRemove m)])).
  - assert (E : forall l : list marker,
               flat_map (fun m => [Leaflet (MarkerRemove m)]) l
               = List.map (fun m => Leaflet (MarkerRemove m)) l).
    { induction l as [|m l IH]; simpl; [reflexivity | now rewrite IH]. }
    simpl. now rewrite app_nil_r, E.
  - intros m _. now apply onMap_live.
Qed.

Lemma clearSearchMarkers_empty (s : MapManager) :
  markers s = [] -> clearSearchMarkers s = (s, [], inr tt).
Proof.
  intros H. unfold clearSearchMarkers, bind, get. rewrite H. simpl.
  rewrite <- H. f_equal. f_equal. apply withMarkers_same.
Qed.

Lemma clearSearchMarkers_released (s : MapManager) :
  leafletMap s = None -> markers s <> [] ->
  clearSearchMarkers s
  = (s, [], inl (TypeError "Cannot read properties of null (reading 'removeLayer')")).
Proof.
  intros Hm Hne. unfold clearSearchMarkers, bind, get.
  destruct (markers s) as [|m l]; [contradiction|]. simpl.
  unfold bind. now rewrite onMap_released.
Qed.

(** [destroy] never throws; it leaves a session with no widget and no
    subscriber, and with no marker if it had a widget. *)
Lemma destroy_run (s : MapManager) :
  resultOf (destroy s) = inr tt
  /\ leafletMap (stateOf (destroy s)) = None
  /\ eventListeners (stateOf (destroy s)) = ∅
  /\ (leafletMap s <> None -> markers (stateOf (destroy s)) = [])
  /\ (leafletMap s = None -> markers (stateOf (destroy s)) = markers s).
Proof.
  unfold destroy, bind, get.
  destruct (leafletMap s) as [w|] eqn:E.
  - rewrite clearSearchMarkers_live by congruence.
    rewrite onMap_live by (simpl; congruence).
    simpl. repeat split; congruence.
  - simpl. repeat split; congruence.
Qed.

End Sessions.

(** ** Search *)

Section Search.

Import MapManager.

Local Open Scope string_scope.

(** The search request did not give a result object: no answer, a status
    that is not OK, a body that is not JSON, or [null]. *)
Definition searchFails (reply : option (response SearchData)) : bool :=
  match reply with
  | None => true
  | Some r => negb (ok r) || match body r with JsonObject _ => false | _ => true end
  end.

(** The answer of the backend to the request that [params] describes. *)
Definition searchReply (net : network) (key : string) (params : ApiManager.SearchParams)
  : option (response SearchData) :=
  serveSearch net key (ApiManager.sp_lat params) (ApiManager.sp_lng params)
    (default "hospital" (ApiManager.sp_type params))
    (default (3000 # 1)%Q (ApiManager.sp_radius params)).

(** [searchPlaces] never throws and touches no state; it sends one request,
    calls no subscriber and nothing of the map library; a failed request
    gives the empty list. *)
Lemma searchPlaces_run {S} (net : network) (key : string)
    (params : ApiManager.SearchParams) (s : S) :
  exists t found,
    ApiManager.searchPlaces net key params s = (s, t, inr found)
    /\ leafletCalls t = []
    /\ (forall event, notified event t = [])
    /\ (searchFails (searchReply net key params) = true -> found = [])
    /\ (forall r d, searchReply net key params = Some r -> ok r = true ->
          body r = JsonObject d -> found = default [] (results d)).
Proof.
  unfold searchReply, ApiManager.searchPlaces, tryCatch, bind, fetch, tell, searchFails.
  destruct (serveSearch net key _ _ _ _) as [[o st b]|]; simpl;
    [destruct o; simpl; [destruct b as [| |d]; simpl|]|];
    do 2 eexists; (split; [reflexivity|]);
    repeat split; intros; try reflexivity; try discriminate;
    try (match goal with H : Some _ = Some _ |- _ => injection H as <- end;
         simpl in *; congruence).
Qed.

(** The popup markup of a search result. *)
Definition searchPopupMarkup (r : SearchResult) : string :=
  markupOf (resultOf (PopupUI.createSearchResultPopup r tt)).

(** The marker that [search] makes for a result with coordinates. *)
Definition markerOf (r : SearchResult) : marker :=
  {| mk_lat := default 0%Q (res_lat r);
     mk_lng := default 0%Q (res_lng r);
     mk_popup := searchPopupMarkup r |}.

(** What placing the marker of [r] asks of the map library. *)
Definition markerCalls (r : SearchResult) : list effect :=
  [ Leaflet (MarkerAdd (mk_lat (markerOf r)) (mk_lng (markerOf r)));
    Leaflet (MarkerBindPopup (mk_lat (markerOf r)) (mk_lng (markerOf r))
               (searchPopupMarkup r)) ].

Lemma createSearchResultPopup_run {S} (r : SearchResult) (s : S) :
  PopupUI.createSearchResultPopup r s = (s, [], inr (searchPopupMarkup r)).
Proof.
  unfold searchPopupMarkup, PopupUI.createSearchResultPopup, PopupUI.createPopupContent,
    bind.
  simpl.
  destruct (or_literal_is_string (res_address r) "Address not available") as [v ->].
  reflexivity.
Qed.

Lemma placeMarker_live (r : SearchResult) (s : MapManager) :
  leafletMap s <> None ->
  placeMarker r s
  = if markable r
    then (withMarkers (markers s ++ [markerOf r]) s, markerCalls r, inr tt)
    else (s, [], inr tt).
Proof.
  intros H. unfold placeMarker, markable, markerCalls, markerOf.
  destruct (res_lat r) as [la|] eqn:Ela, (res_lng r) as [ln|] eqn:Eln; simpl;
    try (destruct (truthyNum _); reflexivity); try reflexivity.
  destruct (truthyNum la && truthyNum ln); [|reflexivity].
  unfold bind. rewrite onMap_live by exact H.
  rewrite createSearchResultPopup_run. simpl. reflexivity.
Qed.

Lemma placeMarkers_live (found : list SearchResult) (s : MapManager) :
  leafletMap s <> None ->
  forEach placeMarker found s
  = (withMarkers (markers s ++ List.map markerOf (List.filter markable found)) s,
     flat_map markerCalls (List.filter markable found), inr tt).
Proof.
  revert s. induction found as [|r l IH]; intros s H; simpl.
  - rewrite app_nil_r. now rewrite withMarkers_same.
  - unfold bind. rewrite placeMarker_live by exact H.
    destruct (markable r) eqn:E.
    + rewrite IH by exact H. simpl. rewrite <- app_assoc. reflexivity.
    + rewrite IH by exact H. reflexivity.
Qed.

Lemma placeMarkers_released (found : list SearchResult) (s : MapManager) :
  leafletMap s = None ->
  forEach placeMarker found s
  = if existsb markable found
    then (s, [], inl (TypeError "Cannot read properties of null (reading 'addLayer')"))
    else (s, [], inr tt).
Proof.
  intros H. induction found as [|r l IH]; simpl; [reflexivity|].
  unfold bind, placeMarker at 1. fold (markable r).
  destruct (markable r) eqn:E; simpl.
  - unfold markable in E. destruct (res_lat r), (res_lng r); try discriminate.
    + unfold bind. now rewrite onMap_released.
    + simpl in E. now rewrite andb_false_r in E.
  - rewrite IH. now destruct (existsb markable l).
Qed.

End Search.

Section SearchRuns.

Import MapManager.

Local Open Scope string_scope.

Lemma search_begin_live (viewCenter : LatLng) (query : string) (opts : SearchOptions)
    (s : MapManager) :
  leafletMap s <> None ->
  exists params, search_begin viewCenter query opts s = (s, [], inr params).
Proof.
  intros H. unfold search_begin, bind, get.
  destruct (so_center opts); simpl; [eauto|].
  destruct (leafletMap s); [simpl; eauto | contradiction].
Qed.

(** A search whose first half succeeded is its request followed by the
    second half under the [catch] block. *)
Lemma search_split (net : network) (viewCenter : LatLng) (query : string)
    (opts : SearchOptions) (s : MapManager) (params : ApiManager.SearchParams)
    (t : list effect) (found : list SearchResult) :
  search_begin viewCenter query opts s = (s, [], inr params) ->
  ApiManager.searchPlaces net (apiKey (options s)) params s = (s, t, inr found) ->
  search net viewCenter query opts s
  = (stateOf (search_settle query found s),
     (t ++ traceOf (search_settle query found s))%list,
     resultOf (search_settle query found s)).
Proof.
  intros Hb Hp. unfold search, search_settle, tryCatch, bind, get.
  rewrite Hb, Hp. simpl. unfold stateOf, traceOf, resultOf.
  destruct (search_resume query found s) as [[s1 t1] [e|a]]; simpl.
  - destruct (search_catch query e s1) as [[s2 t2] r]. simpl.
    now rewrite app_assoc.
  - reflexivity.
Qed.

Lemma search_catch_run (query : string) (error : exn) (s : MapManager) :
  search_catch query error s
  = (s,
     ConsoleError "Search error:" error
     :: deliveries "searchError" (OnSearchError query error)
          (default [] (eventListeners s !! "searchError")),
     inr []).
Proof.
  unfold search_catch, bind, tell. rewrite emit_run. simpl.
  now rewrite app_nil_r.
Qed.

(** The second half of a search on a session that has its widget: every
    old marker is removed; each result with coordinates gets a marker, in
    order; then, for an answer that is not empty, the view is fitted to the
    markers, which throws when there is none. *)
Lemma search_resume_live (query : string) (found : list SearchResult) (s : MapManager) :
  leafletMap s <> None ->
  let ms := List.map markerOf (List.filter markable found) in
  let calls :=
    (List.map (fun m => Leaflet (MarkerRemove m)) (markers s)
     ++ flat_map markerCalls (List.filter markable found))%list in
  let told := deliveries "search" (OnSearch query found)
                (default [] (eventListeners s !! "search")) in
  search_resume query found s
  = match found, ms with
    | [], _ => (withMarkers [] s, (calls ++ told)%list, inr found)
    | _ :: _, [] =>
        (withMarkers [] s, calls,
         inl (TypeError "Cannot read properties of undefined (reading 'lat')"))
    | _ :: _, _ :: _ =>
        (withMarkers ms s, (calls ++ Leaflet (MapFitBounds ms) :: told)%list, inr found)
    end.
Proof.
  intros H. unfold search_resume, bind.
  rewrite clearSearchMarkers_live by exact H.
  rewrite placeMarkers_live by exact H.
  cbn [markers withMarkers stateOf setMarkers put fst app].
  destruct found as [|r l].
  - simpl. rewrite emit_run. simpl. now rewrite !app_nil_r.
  - remember (List.filter markable (r :: l)) as kept.
    destruct kept as [|k kept].
    + simpl. unfold fitToMarkers, bind, get. simpl.
      destruct (leafletMap s); [|contradiction]. simpl. now rewrite !app_nil_r.
    + cbn [List.map]. unfold fitToMarkers, bind, get.
      cbn [leafletMap markers withMarkers stateOf setMarkers put fst].
      destruct (leafletMap s) eqn:E; [|contradiction].
      cbn [tell]. rewrite emit_run. simpl.
      rewrite !app_nil_r, <- !app_assoc. reflexivity.
Qed.

(** On a session without widget and without subscriber, the second half of
    a search changes nothing, throws nothing out, answers the empty list,
    and reaches neither the map library nor any subscriber. *)
Lemma search_settle_released (query : string) (found : list SearchResult)
    (d : MapManager) :
  leafletMap d = None -> eventListeners d = ∅ ->
  stateOf (search_settle query found d) = d
  /\ resultOf (search_settle query found d) = inr []
  /\ leafletCalls (traceOf (search_settle query found d)) = []
  /\ forall event, notified event (traceOf (search_settle query found d)) = [].
Proof.
  intros Hm Hl.
  assert (Hcatch : forall e,
             search_catch query e d = (d, [ConsoleError "Search error:" e], inr [])).
  { intros e. rewrite search_catch_run, Hl. reflexivity. }
  unfold search_settle.
  destruct (markers d) as [|m ms] eqn:Em.
  - assert (Hres : search_resume query found d = (d, [], inr found) /\ found = []
                   \/ exists e, search_resume query found d = (d, [], inl e)).
    { unfold search_resume, bind.
      rewrite clearSearchMarkers_empty by exact Em.
      rewrite placeMarkers_released by exact Hm.
      destruct (existsb markable found); [right; eauto|].
      destruct found as [|r l].
      - left. split; [|reflexivity]. simpl. rewrite emit_run, Hl. reflexivity.
      - right. simpl. unfold fitToMarkers, bind, get. rewrite Hm. simpl. eauto. }
    destruct Hres as [[Hres ->]|[e Hres]].
    + rewrite (tryCatch_inr _ _ _ _ _ _ Hres). repeat split.
    + rewrite (tryCatch_inl _ _ _ _ _ _ Hres), Hcatch. repeat split.
  - assert (Hres : exists e, search_resume query found d = (d, [], inl e)).
    { unfold search_resume, bind.
      rewrite clearSearchMarkers_released by (congruence || exact Hm). eauto. }
    destruct Hres as [e Hres].
    rewrite (tryCatch_inl _ _ _ _ _ _ Hres), Hcatch. repeat split.
Qed.

(** On such a session the second half of a click changes nothing and throws
    nothing out; all it does is hand the markup to the popup it opened. *)
Lemma handleMapClick_settle_released (popup : nat) (at_ : LatLng) (placeData : PlaceData)
    (d : MapManager) :
  eventListeners d = ∅ ->
  stateOf (handleMapClick_settle popup at_ placeData d) = d
  /\ resultOf (handleMapClick_settle popup at_ placeData d) = inr tt
  /\ (exists content,
        leafletCalls (traceOf (handleMapClick_settle popup at_ placeData d))
        = [PopupSetContent popup content])
  /\ forall event,
       notified event (traceOf (handleMapClick_settle popup at_ placeData d)) = [].
Proof.
  intros Hl. unfold handleMapClick_settle, handleMapClick_resume.
  destruct (createPopupContent_ok
              (asPopupData (formatPlaceData placeData (lat at_) (lng at_))) d)
    as [markup Hmk].
  { unfold asPopupData, formatPlaceData; simpl.
    destruct (or_literal_is_string (nominatimDisplayName (nominatim placeData))
                "Address not available") as [v ->]. discriminate. }
  erewrite tryCatch_inr.
  2:{ unfold bind. rewrite Hmk. unfold tell. rewrite emit_run, Hl. reflexivity. }
  repeat split. simpl. eauto.
Qed.

End SearchRuns.

(** ** A session to run things on *)

Section Demo.

Import MapManager.

Local Open Scope string_scope.

Definition subscriber (n : nat) : callback := {| cb_id := n; cb_throws := None |}.

Definition demoOptions : Options :=
  {| center := {| lat := 0; lng := 0 |};
     zoom := 5;
     layer := "plain";
     enableSearch := true;
     enableLayerControl := true;
     apiKey := "key" |}.

(** A session with its widget, one marker left by an earlier search, and
    one subscriber for each of the two search events. *)
Definition liveSession : MapManager :=
  {| containerId := "map";
     options := demoOptions;
     leafletMap := Some "map";
     currentLayer := None;
     markers := [ {| mk_lat := 1; mk_lng := 1; mk_popup := "old" |} ];
     eventListeners :=
       <["searchError" := [subscriber 1]]> (<["search" := [subscriber 2]]> ∅) |}.

Definition noOptions : SearchOptions := {| so_center := None; so_radius := None |}.

Definition origin : LatLng := {| lat := 0; lng := 0 |}.

(** A backend that answers every search with status 500. *)
Definition backendDown : network :=
  {| serveVerify := fun _ => None;
     serveSearch := fun _ _ _ _ _ =>
       Some {| ok := false; status := 500; body := JsonInvalid |};
     serveNominatim := fun _ _ => None;
     serveOverpass := fun _ _ => None |}.

(** A place on the equator. *)
Definition onEquator : SearchResult :=
  {| res_name := JStr "Equator Clinic";
     res_address := JUndefined;
     res_type := JStr "clinic";
     res_phone := JUndefined;
     res_website := JUndefined;
     res_opening_hours := JUndefined;
     res_lat := Some 0%Q;
     res_lng := Some (10 # 1)%Q |}.

(** A backend that answers every search with that one place. *)
Definition equatorOnly : network :=
  {| serveVerify := fun _ => None;
     serveSearch := fun _ _ _ _ _ =>
       Some {| ok := true; status := 200;
               body := JsonObject {| results := Some [onEquator] |} |};
     serveNominatim := fun _ _ => None;
     serveOverpass := fun _ _ => None |}.

End Demo.

(** ** What a failed search does *)

Section FailedSearch.

Import MapManager.

Local Open Scope string_scope.

(** C4, as the code has it.  On a session that has its widget, a search
    whose request fails removes the markers placed before and returns the
    empty list; the failure stays inside the API layer, so the session ends
    the search as one that found nothing: the subscribers of "search" are
    called, those of "searchError" are not. *)
Theorem failed_request_ends_as_empty_search (net : network) (viewCenter : LatLng)
    (query : string) (opts : SearchOptions) (s : MapManager)
    (params : ApiManager.SearchParams) :
  leafletMap s <> None ->
  resultOf (search_begin viewCenter query opts s) = inr params ->
  searchFails (searchReply net (apiKey (options s)) params) = true ->
  let out := search net viewCenter query opts s in
  resultOf out = inr []
  /\ markers (stateOf out) = []
  /\ leafletCalls (traceOf out) = List.map MarkerRemove (markers s)
  /\ notified "search" (traceOf out) = default [] (eventListeners s !! "search")
  /\ notified "searchError" (traceOf out) = [].
Proof.
  intros Hlive Hparams Hfail out. subst out.
  destruct (search_begin_live viewCenter query opts s Hlive) as [params' Hb].
  rewrite Hb in Hparams. injection Hparams as ->.
  destruct (searchPlaces_run net (apiKey (options s)) params s)
    as (t & found & Hp & Hcalls & Hquiet & Hempty & _).
  rewrite (Hempty Hfail) in Hp.
  rewrite (search_split _ _ _ _ _ _ _ _ Hb Hp).
  unfold search_settle.
  pose proof (search_resume_live query [] s Hlive) as Hres. simpl in Hres.
  rewrite (tryCatch_inr _ _ _ _ _ _ Hres).
  cbn [stateOf traceOf resultOf fst snd].
  rewrite !leafletCalls_app, !notified_app, Hcalls, !Hquiet, leafletCalls_deliveries.
  rewrite !notified_deliveries. simpl. rewrite !app_nil_r.
  rewrite leafletCalls_removes, !notified_removes.
  repeat split.
Qed.

Lemma failed_request_ends_as_empty_search_witness :
  let out := search backendDown origin "hospital" noOptions liveSession in
  resultOf out = inr []
  /\ markers (stateOf out) = []
  /\ leafletCalls (traceOf out) = List.map MarkerRemove (markers liveSession)
  /\ notified "search" (traceOf out) = default [] (eventListeners liveSession !! "search")
  /\ notified "searchError" (traceOf out) = [].
Proof.
  apply (failed_request_ends_as_empty_search backendDown origin "hospital" noOptions
           liveSession
           {| ApiManager.sp_lat := 0; ApiManager.sp_lng := 0;
              ApiManager.sp_type := Some "hospital";
              ApiManager.sp_radius := Some (3000 # 1)%Q |}).
  - discriminate.
  - reflexivity.
  - reflexivity.
Defined.

(** The subscriber of "searchError" hears nothing of a search whose request
    was answered with status 500; the subscriber of "search" is told that
    nothing was found. *)
Lemma failed_request_is_not_reported :
  traceOf (search backendDown origin "hospital" noOptions liveSession)
  = [ Fetch (GetSearch "key" 0 0 "hospital" (3000 # 1));
      ConsoleError "Search API error:" (Error "Search API error: 500");
      Leaflet (MarkerRemove {| mk_lat := 1; mk_lng := 1; mk_popup := "old" |});
      Invoke (subscriber 2) "search" (OnSearch "hospital" []) ].
Proof. vm_compute. reflexivity. Qed.

End FailedSearch.

(** ** Completions that arrive after [destroy] *)

Section LateCompletion.

Import MapManager.

Local Open Scope string_scope.

(** C9.  Take any session, destroy it, and let a search or a click that
    was waiting for its answer complete.  [destroy] does not throw.  The
    late search throws nothing out (what its steps throw on the released
    widget is caught and logged), answers the empty list, calls nothing of
    the map library and no subscriber, and leaves the destroyed session as
    it is, marker list included.  The late click throws nothing either,
    leaves the session as it is, and only hands markup to the popup that
    the click had opened. *)
Theorem late_completion_is_harmless (s : MapManager) (query : string)
    (found : list SearchResult) (popup : nat) (at_ : LatLng) (placeData : PlaceData) :
  let d := stateOf (destroy s) in
  resultOf (destroy s) = inr tt
  /\ (leafletMap s <> None -> markers d = [])
  /\ stateOf (search_settle query found d) = d
  /\ resultOf (search_settle query found d) = inr []
  /\ leafletCalls (traceOf (search_settle query found d)) = []
  /\ (forall event, notified event (traceOf (search_settle query found d)) = [])
  /\ stateOf (handleMapClick_settle popup at_ placeData d) = d
  /\ resultOf (handleMapClick_settle popup at_ placeData d) = inr tt
  /\ (exists content,
        leafletCalls (traceOf (handleMapClick_settle popup at_ placeData d))
        = [PopupSetContent popup content])
  /\ (forall event,
        notified event (traceOf (handleMapClick_settle popup at_ placeData d)) = []).
Proof.
  intros d.
  destruct (destroy_run s) as (Hr & Hm & Hl & Hk & _).
  destruct (search_settle_released query found d Hm Hl) as (A1 & A2 & A3 & A4).
  destruct (handleMapClick_settle_released popup at_ placeData d Hl)
    as (B1 & B2 & B3 & B4).
  repeat split; assumption.
Qed.

End LateCompletion.

(** ** Results without coordinates *)

Section SkippedResults.

Import MapManager.

Local Open Scope string_scope.

(** C10.  A result on the equator gets no marker, as the guard says.  When
    it is the only result, fitting the view to the markers finds none and
    throws; the search ends in its [catch] block: the result is not in the
    returned list, which is empty, and the subscriber of "searchError" is
    called instead of the subscriber of "search". *)
Theorem only_skipped_results_are_lost :
  let out := search equatorOnly origin "clinic" noOptions liveSession in
  markable onEquator = false
  /\ markers (stateOf out) = []
  /\ resultOf out = inr []
  /\ traceOf out
     = [ Fetch (GetSearch "key" 0 0 "clinic" (3000 # 1));
         Leaflet (MarkerRemove {| mk_lat := 1; mk_lng := 1; mk_popup := "old" |});
         ConsoleError "Search error:"
           (TypeError "Cannot read properties of undefined (reading 'lat')");
         Invoke (subscriber 1) "searchError"
           (OnSearchError "clinic"
              (TypeError "Cannot read properties of undefined (reading 'lat')")) ].
Proof. vm_compute. repeat split. Qed.

End SkippedResults.

(** ** The facade's registry *)

Section Registry.

Import MapifyOS.

Local Open Scope string_scope.

(** C8, as the code has it.  For an identifier that the registry does not
    hold, [search] and [showPopup] throw an error that names it and do
    nothing else; [destroy] returns quietly and leaves the registry as it
    is. *)
Theorem unknown_container (net : network) (viewCenter : LatLng) (f : Facade)
    (containerId query : string) (opts : MapManager.SearchOptions)
    (popup : nat) (lat lng : Q) (data : PopupUI.PopupData) :
  mapGet containerId (instances f) = None ->
  search net viewCenter containerId query opts f
  = (f, [], inl (Error ("Map instance '" ++ containerId ++ "' not found")))
  /\ showPopup popup containerId lat lng data f
     = (f, [], inl (Error ("Map instance '" ++ containerId ++ "' not found")))
  /\ destroy containerId f = (f, [], inr tt).
Proof.
  intros H. unfold search, showPopup, destroy, bind, get. rewrite H.
  repeat split.
Qed.

Lemma unknown_container_witness :
  search backendDown origin "nowhere" "bank" noOptions new
  = (new, [], inl (Error "Map instance 'nowhere' not found"))
  /\ showPopup 0 "nowhere" 0 0 hostileRecord new
     = (new, [], inl (Error "Map instance 'nowhere' not found"))
  /\ destroy "nowhere" new = (new, [], inr tt).
Proof.
  apply (unknown_container backendDown origin new "nowhere" "bank" noOptions 0 0 0
           hostileRecord).
  reflexivity.
Defined.

(** Destroying a container that was never initialised raises nothing. *)
Lemma destroy_unknown_is_silent :
  resultOf (destroy "nowhere" new) = inr tt
  /\ stateOf (destroy "nowhere" new) = new
  /\ traceOf (destroy "nowhere" new) = [].
Proof. repeat split. Qed.

End Registry.

(** * Further properties of the code *)


(** ** Search on a session that has its widget *)

Section SearchOutcome.

Import MapManager.

Local Open Scope string_scope.






(** X3.  When the answer is not empty and none of its results has both
    coordinates non-zero, the second half of the search removes the old
    markers, places none, and ends in the [catch] block: it answers the
    empty list and calls the subscribers of "searchError", not those of
    "search". *)
Theorem unmarkable_answer_fails (query : string) (found : list SearchResult)
    (s : MapManager) :
  leafletMap s <> None ->
  found <> [] ->
  List.filter markable found = [] ->
  let out := search_settle query found s in
  resultOf out = inr []
  /\ markers (stateOf out) = []
  /\ leafletCalls (traceOf out) = List.map MarkerRemove (markers s)
  /\ notified "search" (traceOf out) = []
  /\ notified "searchError" (traceOf out)
     = default [] (eventListeners s !! "searchError").
Proof.
  intros Hlive Hne Hnone out. subst out. unfold search_settle.
  pose proof (search_resume_live query found s Hlive) as Hres. cbv zeta in Hres.
  rewrite Hnone in Hres. destruct found as [|x l]; [contradiction|].
  simpl in Hres. rewrite app_nil_r in Hres.
  rewrite (tryCatch_inl _ _ _ _ _ _ Hres), search_catch_run.
  cbn [stateOf traceOf resultOf fst snd].
  rewrite leafletCalls_app, !notified_app, leafletCalls_removes, !notified_removes.
  simpl. rewrite leafletCalls_deliveries, !notified_deliveries, app_nil_r. simpl.
  repeat split.
Qed.

Lemma unmarkable_answer_fails_witness :
  let out := search_settle "clinic" [onEquator] liveSession in
  resultOf out = inr []
  /\ markers (stateOf out) = []
  /\ leafletCalls (traceOf out) = List.map MarkerRemove (markers liveSession)
  /\ notified "search" (traceOf out) = []
  /\ notified "searchError" (traceOf out)
     = default [] (eventListeners liveSession !! "searchError").
Proof.
  apply (unmarkable_answer_fails "clinic" [onEquator] liveSession).
  - discriminate.
  - discriminate.
  - reflexivity.
Defined.

End SearchOutcome.

(** ** The event registry *)

Section EventRegistry.

Import MapManager.

Local Open Scope string_scope.


(** The listeners of [event] in a session. *)
Definition listenersOf (event : string) (s : MapManager) : list callback :=
  default [] (eventListeners s !! event).

Lemma on_run (event : string) (cb : callback) (s : MapManager) :
  resultOf (on event cb s) = inr tt
  /\ traceOf (on event cb s) = []
  /\ listenersOf event (stateOf (on event cb s)) = (listenersOf event s ++ [cb])%list
  /\ forall other, other <> event ->
       eventListeners (stateOf (on event cb s)) !! other = eventListeners s !! other.
Proof.
  unfold on, bind, get, listenersOf. simpl.
  destruct (eventListeners s !! event) as [l|] eqn:E; simpl.
  - rewrite E. simpl. repeat split.
    + now rewrite lookup_insert_eq.
    + intros other Hne. now rewrite lookup_insert_ne by congruence.
  - rewrite lookup_insert_eq. simpl. repeat split.
    + now rewrite lookup_insert_eq.
    + intros other Hne. now rewrite !lookup_insert_ne by congruence.
Qed.



(** X5.  Subscribing a function adds it after the subscribers already there, so
    the next event reaches them first and it last; a function may be
    subscribed more than once. *)
Theorem on_appends (event : string) (cb : callback) (data : payload) (s : MapManager) :
  let s' := stateOf (on event cb s) in
  resultOf (on event cb s) = inr tt
  /\ notified event (traceOf (emit event data s'))
     = (notified event (traceOf (emit event data s)) ++ [cb])%list
  /\ forall other, other <> event ->
       traceOf (emit other data s') = traceOf (emit other data s).
Proof.
  intros s'. destruct (on_run event cb s) as (Hr & _ & Hl & Ho).
  split; [exact Hr|]. split.
  - rewrite !emit_run. cbn [traceOf fst snd].
    rewrite !notified_deliveries, !String.eqb_refl. exact Hl.
  - intros other Hne. rewrite !emit_run. cbn [traceOf fst snd].
    subst s'. now rewrite (Ho other Hne).
Qed.


End EventRegistry.

(** ** Tearing a session down *)

Section Teardown.

Import MapManager.

Local Open Scope string_scope.

(** X7.  [destroy] on a session with its widget removes each marker from the
    map, in order, then removes the map; it calls no subscriber.  On a
    session without widget it calls nothing of the map library. *)
Theorem destroy_releases (s : MapManager) :
  resultOf (destroy s) = inr tt
  /\ leafletMap (stateOf (destroy s)) = None
  /\ eventListeners (stateOf (destroy s)) = ∅
  /\ (forall event, notified event (traceOf (destroy s)) = [])
  /\ (leafletMap s <> None ->
      markers (stateOf (destroy s)) = []
      /\ leafletCalls (traceOf (destroy s))
         = (List.map MarkerRemove (markers s) ++ [MapRemove])%list)
  /\ (leafletMap s = None -> traceOf (destroy s) = []).
Proof.
  unfold destroy, bind, get.
  destruct (leafletMap s) as [w|] eqn:E.
  - rewrite clearSearchMarkers_live by congruence.
    rewrite onMap_live by (simpl; congruence).
    cbn [stateOf traceOf resultOf fst snd withMarkers setMarkers setLeafletMap
         setEventListeners put leafletMap eventListeners markers app].
    repeat split; try congruence.
    + intros event. rewrite !notified_app, notified_removes. reflexivity.
    + rewrite !app_nil_r, leafletCalls_app, leafletCalls_removes. reflexivity.
  - simpl. repeat split; congruence.
Qed.

(** X8.  Destroying twice is destroying once: the second call finds nothing to
    release, does nothing, and throws nothing. *)
Theorem destroy_twice (s : MapManager) :
  destroy (stateOf (destroy s)) = (stateOf (destroy s), [], inr tt).
Proof.
  destruct (destroy_run s) as (_ & Hm & Hl & _).
  remember (stateOf (destroy s)) as d.
  unfold destroy, bind, get. rewrite Hm. simpl.
  destruct d; simpl in *. now subst.
Qed.

End Teardown.

(** ** A click on the map *)

Section Click.

Import MapManager.

Local Open Scope string_scope.

(** The markup of the popup for a resolved place. *)
Definition placeMarkup (r : PlaceRecord) : string :=
  markupOf (resultOf (PopupUI.createPopupContent (asPopupData r) tt)).

Lemma createPopupContent_place {S} (placeData : PlaceData) (lat lng : Q) (s : S) :
  PopupUI.createPopupContent (asPopupData (formatPlaceData placeData lat lng)) s
  = (s, [], inr (placeMarkup (formatPlaceData placeData lat lng))).
Proof.
  unfold placeMarkup, PopupUI.createPopupContent, bind, asPopupData, formatPlaceData.
  cbn [PopupUI.pd_address address PopupUI.withDefault].
  destruct (or_literal_is_string (nominatimDisplayName (nominatim placeData))
              "Address not available") as [v ->].
  reflexivity.
Qed.

Lemma getPlaceDetails_quiet {S} (net : network) (lat lng : Q) (s : S) :
  exists t placeData,
    ApiManager.getPlaceDetails net lat lng s = (s, t, inr placeData)
    /\ leafletCalls t = []
    /\ forall event, notified event t = [].
Proof.
  cbv [ApiManager.getPlaceDetails tryCatch bind fetch tell responseJson member throw ret].
  destruct (serveNominatim net lat lng) as [[o1 st1 [| |n]]|];
    destruct (serveOverpass net lat lng) as [[o2 st2 [| |d]]|];
    cbv beta iota; do 2 eexists; (split; [reflexivity|]); split; reflexivity.
Qed.

(** X9.  A click on a session with its widget never throws and changes nothing
    in the session.  The loading fragment is shown first and is replaced
    exactly once, by the markup of the resolved record: whatever the two
    lookups answer, the record is complete, so the error fragment is not
    what ends up in the popup.  The subscribers of "placeClick" are called
    with the coordinates and the record. *)
Theorem click_shows_the_place (net : network) (popup : nat) (at_ : LatLng)
    (s : MapManager) :
  leafletMap s <> None ->
  let out := handleMapClick net popup at_ s in
  exists r,
    resultOf (resolvePlace net (lat at_) (lng at_) s) = inr r
    /\ resultOf out = inr tt
    /\ stateOf out = s
    /\ leafletCalls (traceOf out)
       = [ PopupOpen popup at_ PopupUI.createLoadingContent;
           PopupSetContent popup (placeMarkup r) ]
    /\ notified "placeClick" (traceOf out) = listenersOf "placeClick" s.
Proof.
  intros Hlive out. subst out.
  destruct (getPlaceDetails_quiet net (lat at_) (lng at_) s)
    as (t & placeData & Hg & Hcalls & Hquiet).
  exists (formatPlaceData placeData (lat at_) (lng at_)).
  unfold resolvePlace, handleMapClick, handleMapClick_begin, handleMapClick_resume.
  rewrite (bind_inr _ _ _ _ _ _ Hg).
  rewrite (bind_inr _ _ _ _ _ _ (onMap_live _ _ _ Hlive)).
  erewrite tryCatch_inr.
  2:{ unfold bind, tell. rewrite Hg. cbv beta iota.
      rewrite createPopupContent_place. cbv beta iota.
      rewrite emit_run. reflexivity. }
  cbn [stateOf traceOf resultOf fst snd ret app].
  cbn [leafletCalls notified].
  rewrite !leafletCalls_app, !notified_app, Hcalls, Hquiet.
  cbn [leafletCalls notified app].
  rewrite leafletCalls_deliveries, notified_deliveries. simpl.
  repeat split.
Qed.

Lemma click_shows_the_place_witness :
  exists r,
    resultOf (resolvePlace fastFood 0 0 liveSession) = inr r
    /\ resultOf (handleMapClick fastFood 7 origin liveSession) = inr tt
    /\ stateOf (handleMapClick fastFood 7 origin liveSession) = liveSession
    /\ leafletCalls (traceOf (handleMapClick fastFood 7 origin liveSession))
       = [ PopupOpen 7 origin PopupUI.createLoadingContent;
           PopupSetContent 7 (placeMarkup r) ]
    /\ notified "placeClick" (traceOf (handleMapClick fastFood 7 origin liveSession))
       = listenersOf "placeClick" liveSession.
Proof.
  apply (click_shows_the_place fastFood 7 origin liveSession). discriminate.
Defined.

(** X10.  On a session without widget (not initialised, or destroyed) a click,
    [setView] and [showPopup] throw a [TypeError] at once: no request is
    sent, no subscriber is called, and the session is unchanged. *)
Theorem widget_calls_need_the_widget (net : network) (popup : nat) (at_ : LatLng)
    (zoom : Q) (content : string) (s : MapManager) :
  leafletMap s = None ->
  handleMapClick net popup at_ s
  = (s, [], inl (TypeError "Cannot read properties of null (reading 'hasLayer')"))
  /\ setView at_ zoom s
     = (s, [], inl (TypeError "Cannot read properties of null (reading 'setView')"))
  /\ showPopup popup (lat at_) (lng at_) content s
     = (s, [], inl (TypeError "Cannot read properties of null (reading 'hasLayer')")).
Proof.
  intros H.
  unfold handleMapClick, handleMapClick_begin, setView, showPopup, bind.
  rewrite !onMap_released by exact H. repeat split.
Qed.

Lemma widget_calls_need_the_widget_witness :
  handleMapClick fastFood 7 origin (MapManager.new "map" demoOptions)
  = (MapManager.new "map" demoOptions, [],
     inl (TypeError "Cannot read properties of null (reading 'hasLayer')"))
  /\ setView origin 5 (MapManager.new "map" demoOptions)
     = (MapManager.new "map" demoOptions, [],
        inl (TypeError "Cannot read properties of null (reading 'setView')"))
  /\ showPopup 7 (lat origin) (lng origin) "hello" (MapManager.new "map" demoOptions)
     = (MapManager.new "map" demoOptions, [],
        inl (TypeError "Cannot read properties of null (reading 'hasLayer')")).
Proof.
  apply (widget_calls_need_the_widget fastFood 7 origin 5 "hello"
           (MapManager.new "map" demoOptions)).
  reflexivity.
Defined.

End Click.

(** ** Layers and start-up *)

Section Layers.

Import MapManager.

Local Open Scope string_scope.

(** The layer [setLayer] ends up using for a name. *)
Definition effectiveLayer (layerName : string) : string :=
  match layerLookup layerName with
  | Some _ => layerName
  | None => "plain"
  end.

(** What [setLayer] asks of the map library: the old tile layer goes, if
    there is one, and the new one is added. *)
Definition layerCalls (old : option (jsval * jsval)) (new : jsval * jsval)
  : list leafletCall :=
  (match old with
   | Some (u, a) => [TileLayerRemove u a]
   | None => []
   end ++ [TileLayerAdd (fst new) (snd new)])%list.

Lemma setLayer_live (layerName : string) (s : MapManager) :
  leafletMap s <> None ->
  let cfg := default (JUndefined, JUndefined) (layerLookup (effectiveLayer layerName)) in
  setLayer layerName s
  = (stateOf (setCurrentLayer (Some cfg) s),
     (match layerLookup layerName with
      | Some _ => []
      | None => [ConsoleWarn ("Layer '" ++ layerName ++ "' not found, using 'plain'")]
      end
      ++ List.map Leaflet (layerCalls (currentLayer s) cfg)
      ++ deliveries "layerChange" (OnLayerChange (effectiveLayer layerName))
           (default [] (eventListeners s !! "layerChange")))%list,
     inr tt).
Proof.
  intros Hlive cfg. subst cfg.
  unfold setLayer, effectiveLayer, layerCalls, bind, get, ret, tell.
  destruct (layerLookup layerName) as [c|] eqn:E; cbv beta iota; rewrite ?E;
    destruct (currentLayer s) as [[u a]|]; cbv beta iota;
    rewrite !onMap_live by exact Hlive; cbv beta iota;
    unfold setCurrentLayer, put; cbv beta iota;
    rewrite emit_run; simpl; rewrite ?app_nil_r; reflexivity.
Qed.

(** X11.  A layer name that the session does not know (and that is not the name
    of something every object inherits) is replaced by "plain": a warning
    is logged, the plain tiles are put on the map in place of the current
    ones, and the subscribers of "layerChange" are told "plain". *)
Theorem unknown_layer_becomes_plain (layerName : string) (s : MapManager) :
  leafletMap s <> None ->
  layerLookup layerName = None ->
  let out := setLayer layerName s in
  resultOf out = inr tt
  /\ currentLayer (stateOf out) = layerLookup "plain"
  /\ traceOf out
     = (ConsoleWarn ("Layer '" ++ layerName ++ "' not found, using 'plain'")
        :: List.map Leaflet (layerCalls (currentLayer s)
              (JStr "https://{s}.tile.openstreetmap.org/{z}/{x}/{y}.png",
               JStr "© OpenStreetMap contributors"))
        ++ deliveries "layerChange" (OnLayerChange "plain")
             (listenersOf "layerChange" s))%list
  /\ markers (stateOf out) = markers s
  /\ eventListeners (stateOf out) = eventListeners s.
Proof.
  intros Hlive Hnone out. subst out.
  pose proof (setLayer_live layerName s Hlive) as H. cbv zeta in H.
  unfold effectiveLayer in H. rewrite Hnone in H. rewrite H.
  repeat split.
Qed.

Lemma unknown_layer_becomes_plain_witness :
  let out := setLayer "watercolor" liveSession in
  resultOf out = inr tt
  /\ currentLayer (stateOf out) = layerLookup "plain"
  /\ traceOf out
     = (ConsoleWarn ("Layer '" ++ "watercolor" ++ "' not found, using 'plain'")
        :: List.map Leaflet (layerCalls (currentLayer liveSession)
              (JStr "https://{s}.tile.openstreetmap.org/{z}/{x}/{y}.png",
               JStr "© OpenStreetMap contributors"))
        ++ deliveries "layerChange" (OnLayerChange "plain")
             (listenersOf "layerChange" liveSession))%list
  /\ markers (stateOf out) = markers liveSession
  /\ eventListeners (stateOf out) = eventListeners liveSession.
Proof.
  apply (unknown_layer_becomes_plain "watercolor" liveSession).
  - discriminate.
  - reflexivity.
Defined.

(** X12.  The four layer names of the documentation are known, and each puts its
    own tiles on the map and is the name the subscribers are told. *)
Theorem known_layers_are_used (layerName : string) (s : MapManager) :
  leafletMap s <> None ->
  In layerName ["plain"; "terrain"; "satellite"; "dark"] ->
  let out := setLayer layerName s in
  exists cfg,
    ownLayer layers layerName = Some cfg
    /\ resultOf out = inr tt
    /\ currentLayer (stateOf out) = Some (JStr (url cfg), JStr (attribution cfg))
    /\ leafletCalls (traceOf out)
       = layerCalls (currentLayer s) (JStr (url cfg), JStr (attribution cfg))
    /\ traceOf out
       = (List.map Leaflet
            (layerCalls (currentLayer s) (JStr (url cfg), JStr (attribution cfg)))
          ++ deliveries "layerChange" (OnLayerChange layerName)
               (listenersOf "layerChange" s))%list.
Proof.
  intros Hlive Hin out. subst out.
  pose proof (setLayer_live layerName s Hlive) as H. cbv zeta in H.
  assert (Hcalls : forall l : list leafletCall,
             leafletCalls (List.map Leaflet l) = l).
  { induction l as [|c l IH]; simpl; [reflexivity | now rewrite IH]. }
  simpl in Hin.
  destruct Hin as [<-|[<-|[<-|[<-|[]]]]]; eexists; (split; [reflexivity|]);
    rewrite H; cbn [stateOf traceOf resultOf fst snd];
    rewrite ?leafletCalls_app, ?leafletCalls_deliveries, ?app_nil_r;
    repeat split; apply Hcalls.
Qed.

Lemma known_layers_are_used_witness :
  exists cfg,
    ownLayer layers "dark" = Some cfg
    /\ resultOf (setLayer "dark" liveSession) = inr tt
    /\ currentLayer (stateOf (setLayer "dark" liveSession))
       = Some (JStr (url cfg), JStr (attribution cfg))
    /\ leafletCalls (traceOf (setLayer "dark" liveSession))
       = layerCalls (currentLayer liveSession) (JStr (url cfg), JStr (attribution cfg))
    /\ traceOf (setLayer "dark" liveSession)
       = (List.map Leaflet
            (layerCalls (currentLayer liveSession)
               (JStr (url cfg), JStr (attribution cfg)))
          ++ deliveries "layerChange" (OnLayerChange "dark")
               (listenersOf "layerChange" liveSession))%list.
Proof.
  apply (known_layers_are_used "dark" liveSession).
  - discriminate.
  - simpl. auto.
Defined.

End Layers.

(** ** Starting a session *)

Section Startup.

Import MapManager.

Local Open Scope string_scope.

(** The session that a successful [initialize] leaves. *)
Definition started (cid : string) (opts : Options) : MapManager :=
  {| containerId := cid;
     options := opts;
     leafletMap := Some cid;
     currentLayer :=
       Some (default (JUndefined, JUndefined) (layerLookup (effectiveLayer (layer opts))));
     markers := [];
     eventListeners := ∅ |}.


Lemma leafletCalls_map (l : list leafletCall) : leafletCalls (List.map Leaflet l) = l.
Proof. induction l as [|c l IH]; simpl; [reflexivity | now rewrite IH]. Qed.



End Startup.

(** ** The credential check *)

Section Credentials.

Local Open Scope string_scope.

(** The answer accepts the key: the status is OK and the body is an object
    whose [valid] field is the boolean [true]. *)
Definition keyAccepted (reply : option (response VerifyData)) : bool :=
  match reply with
  | Some r =>
      ok r && match body r with
              | JsonObject d => match valid d with Some true => true | _ => false end
              | _ => false
              end
  | None => false
  end.

Lemma verifyApiKey_run {S} (net : network) (key : string) (s : S) :
  exists t,
    ApiManager.verifyApiKey net key s = (s, t, inr (keyAccepted (serveVerify net key)))
    /\ fetches t = [GetVerify key]
    /\ leafletCalls t = []
    /\ forall event, notified event t = [].
Proof.
  cbv [ApiManager.verifyApiKey tryCatch bind fetch tell responseJson member throw ret
       keyAccepted].
  destruct (serveVerify net key) as [[o st [| |[[[]|]]]]|]; destruct o || idtac;
    cbv beta iota; cbn [negb andb ok body valid app];
    eexists; (split; [reflexivity|]); repeat split.
Qed.

(** X14.  [verifyApiKey] never throws and changes no state; it sends exactly one
    request, and answers [true] exactly when the answer accepts the key:
    a network failure, a status that is not OK, a body that is not JSON, a
    [null] body and a [valid] field that is missing or not [true] all give
    [false]. *)
Theorem verifyApiKey_total {S} (net : network) (key : string) (s : S) :
  stateOf (ApiManager.verifyApiKey net key s) = s
  /\ resultOf (ApiManager.verifyApiKey net key s)
     = inr (keyAccepted (serveVerify net key))
  /\ fetches (traceOf (ApiManager.verifyApiKey net key s)) = [GetVerify key]
  /\ leafletCalls (traceOf (ApiManager.verifyApiKey net key s)) = []
  /\ forall event, notified event (traceOf (ApiManager.verifyApiKey net key s)) = [].
Proof.
  destruct (verifyApiKey_run net key s) as (t & -> & Hf & Hc & Hq).
  repeat split; assumption.
Qed.

End Credentials.

(** ** The facade *)

Section FacadeRegistry.

Import MapifyOS.

Local Open Scope string_scope.


Lemma mapGet_mapSet_ne (key other : string) (v : MapManager.MapManager)
    (l : list (string * MapManager.MapManager)) :
  other <> key -> mapGet other (mapSet key v l) = mapGet other l.
Proof.
  intros Hne. induction l as [|[k w] l IH]; simpl.
  - destruct (String.eqb_spec key other); [congruence | reflexivity].
  - destruct (String.eqb_spec k key) as [->|Hk]; simpl.
    + destruct (String.eqb_spec key other); [congruence | reflexivity].
    + destruct (String.eqb k other); [reflexivity | exact IH].
Qed.

Lemma keys_mapSet (key : string) (v : MapManager.MapManager)
    (l : list (string * MapManager.MapManager)) :
  List.map fst (mapSet key v l)
  = match mapGet key l with
    | Some _ => List.map fst l
    | None => (List.map fst l ++ [key])%list
    end.
Proof.
  induction l as [|[k w] l IH]; simpl; [reflexivity|].
  destruct (String.eqb_spec k key) as [->|Hk]; simpl; [reflexivity|].
  rewrite IH. now destruct (mapGet key l).
Qed.

Lemma mapGet_mapDelete_ne (key other : string)
    (l : list (string * MapManager.MapManager)) :
  other <> key -> mapGet other (mapDelete key l) = mapGet other l.
Proof.
  intros Hne. induction l as [|[k w] l IH]; simpl; [reflexivity|].
  destruct (String.eqb_spec k key) as [->|Hk]; simpl.
  - destruct (String.eqb_spec key other); [congruence | reflexivity].
  - destruct (String.eqb k other); [reflexivity | exact IH].
Qed.

Lemma mapGet_None_keys (key : string) (l : list (string * MapManager.MapManager)) :
  mapGet key l = None <-> ~ In key (List.map fst l).
Proof.
  induction l as [|[k w] l IH]; simpl; [tauto|].
  destruct (String.eqb_spec k key) as [->|Hk].
  - split; [discriminate | intros H; destruct H; now left].
  - rewrite IH. tauto.
Qed.

Lemma mapGet_mapDelete_eq (key : string) (l : list (string * MapManager.MapManager)) :
  List.NoDup (List.map fst l) -> mapGet key (mapDelete key l) = None.
Proof.
  induction l as [|[k w] l IH]; simpl; intros Hnd; [reflexivity|].
  apply NoDup_cons_iff in Hnd as [Hk Hnd].
  destruct (String.eqb_spec k key) as [->|Hne]; simpl.
  - now apply mapGet_None_keys.
  - destruct (String.eqb_spec k key); [contradiction | now apply IH].
Qed.

Lemma keys_mapDelete (key : string) (l : list (string * MapManager.MapManager)) :
  List.NoDup (List.map fst l) ->
  List.NoDup (List.map fst (mapDelete key l))
  /\ forall k, In k (List.map fst (mapDelete key l)) <-> In k (List.map fst l) /\ k <> key.
Proof.
  induction l as [|[k w] l IH]; simpl; intros Hnd.
  - split; [constructor | tauto].
  - apply NoDup_cons_iff in Hnd as [Hk Hnd].
    destruct (String.eqb_spec k key) as [->|Hne]; simpl.
    + split; [exact Hnd|]. intros k0. split.
      * intros H. split; [now right | congruence].
      * intros [[->|H] Hn]; [contradiction | exact H].
    + destruct (IH Hnd) as [IH1 IH2]. split.
      * apply NoDup_cons_iff. split; [|exact IH1]. rewrite IH2. tauto.
      * intros k0. rewrite IH2. split.
        -- intros [->|[H1 H2]]; [split; [now left | exact Hne] | split; [now right | exact H2]].
        -- intros [[->|H] Hn]; [now left | right; tauto].
Qed.

(** X15.  Destroying a registered container through the facade destroys its
    session, takes it out of the registry and leaves the other containers
    registered with the sessions they had; after that, [search] on the
    identifier fails loudly and a second [destroy] does nothing. *)
Theorem facade_destroy_unregisters (f : Facade) (cid : string)
    (mgr : MapManager.MapManager) (net : network) (viewCenter : LatLng)
    (query : string) (opts : MapManager.SearchOptions) :
  List.NoDup (getInstances f) ->
  mapGet cid (instances f) = Some mgr ->
  let f' := stateOf (destroy cid f) in
  resultOf (destroy cid f) = inr tt
  /\ traceOf (destroy cid f) = traceOf (MapManager.destroy mgr)
  /\ mapGet cid (instances f') = None
  /\ (forall other, other <> cid -> mapGet other (instances f') = mapGet other (instances f))
  /\ (forall k, In k (getInstances f') <-> In k (getInstances f) /\ k <> cid)
  /\ List.NoDup (getInstances f')
  /\ search net viewCenter cid query opts f'
     = (f', [], inl (Error ("Map instance '" ++ cid ++ "' not found")))
  /\ destroy cid f' = (f', [], inr tt).
Proof.
  intros Hnd Hget f'.
  assert (Hrun : destroy cid f
                 = ({| instances :=
                         mapDelete cid (mapSet cid (stateOf (MapManager.destroy mgr))
                                          (instances f)) |},
                    traceOf (MapManager.destroy mgr), inr tt)).
  { unfold destroy, bind, get, onInstance, put. rewrite Hget.
    destruct (destroy_run mgr) as (Hr & _).
    unfold stateOf, traceOf, resultOf in *.
    destruct (MapManager.destroy mgr) as [[m t] r]. simpl in *. subst r.
    simpl. now rewrite app_nil_r. }
  assert (Hkeys : List.map fst (mapSet cid (stateOf (MapManager.destroy mgr)) (instances f))
                  = List.map fst (instances f)).
  { rewrite keys_mapSet, Hget. reflexivity. }
  assert (Hnd' : List.NoDup (List.map fst (mapSet cid (stateOf (MapManager.destroy mgr))
                                        (instances f)))).
  { rewrite Hkeys. exact Hnd. }
  assert (Hgone : mapGet cid (instances f') = None).
  { subst f'. rewrite Hrun. simpl. now apply mapGet_mapDelete_eq. }
  subst f'. rewrite Hrun in *. cbn [stateOf traceOf resultOf fst snd instances] in *.
  repeat apply conj.
  - reflexivity.
  - reflexivity.
  - exact Hgone.
  - intros other Hne. rewrite mapGet_mapDelete_ne by exact Hne.
    now apply mapGet_mapSet_ne.
  - unfold getInstances; simpl. intros k.
    rewrite (proj2 (keys_mapDelete cid _ Hnd') k), Hkeys. reflexivity.
  - unfold getInstances; simpl. now apply keys_mapDelete.
  - unfold search, bind, get. simpl. now rewrite Hgone.
  - unfold destroy, bind, get. simpl. now rewrite Hgone.
Qed.

Definition oneSession : Facade := {| instances := [("map", liveSession)] |}.

Lemma facade_destroy_unregisters_witness :
  let f' := stateOf (destroy "map" oneSession) in
  resultOf (destroy "map" oneSession) = inr tt
  /\ traceOf (destroy "map" oneSession) = traceOf (MapManager.destroy liveSession)
  /\ mapGet "map" (instances f') = None
  /\ (forall other, other <> "map" ->
        mapGet other (instances f') = mapGet other (instances oneSession))
  /\ (forall k, In k (getInstances f') <-> In k (getInstances oneSession) /\ k <> "map")
  /\ List.NoDup (getInstances f')
  /\ search backendDown origin "map" "bank" noOptions f'
     = (f', [], inl (Error ("Map instance '" ++ "map" ++ "' not found")))
  /\ destroy "map" f' = (f', [], inr tt).
Proof.
  apply (facade_destroy_unregisters oneSession "map" liveSession backendDown origin
           "bank" noOptions).
  - repeat constructor. simpl. tauto.
  - reflexivity.
Defined.

End FacadeRegistry.

Section FacadeInit.

Import MapifyOS.

Local Open Scope string_scope.

(** X16.  [init] refuses, in this order, an empty container id, a missing or
    empty API key, a container that is not in the page, and a key that the
    credential check does not accept.  Each refusal is logged and thrown;
    the registry is left as it was and nothing of the map library is
    called; only the last one has sent a request, the credential check. *)
Theorem init_refusals (page : MapManager.Page) (net : network) (cid : string)
    (opts : InitOptions) (f : Facade) :
  let refused e sent :=
    init page net cid opts f
    = (f, (List.map Fetch sent
           ++ [ConsoleError "MapifyOS initialization error:" e])%list, inl e) in
  (cid = "" -> refused (Error "Container ID is required") [])
  /\ (cid <> "" -> truthy (io_apiKey opts) = false ->
      refused (Error "API key is required") [])
  /\ (forall key, cid <> "" -> present (io_apiKey opts) key ->
        MapManager.hasElement page cid = false ->
        refused (Error ("Container with ID '" ++ cid ++ "' not found")) [])
  /\ (forall key, cid <> "" -> present (io_apiKey opts) key ->
        MapManager.hasElement page cid = true ->
        keyAccepted (serveVerify net key) = false ->
        exists t,
          init page net cid opts f
          = (f, (t ++ [ConsoleError "MapifyOS initialization error:"
                         (Error "Invalid or inactive API key")])%list,
             inl (Error "Invalid or inactive API key"))
          /\ fetches t = [GetVerify key]
          /\ leafletCalls t = []).
Proof.
  intros refused. subst refused. cbv beta.
  assert (Hkey : forall key, present (io_apiKey opts) key ->
            io_apiKey opts = JStr key /\ truthy (JStr key) = true).
  { intros key [H1 H2]. split; [exact H1|]. simpl.
    destruct (String.eqb_spec key ""); [contradiction | reflexivity]. }
  repeat apply conj.
  - intros ->. reflexivity.
  - intros Hc Hk. unfold init, tryCatch, bind.
    destruct (String.eqb_spec cid ""); [contradiction|]. simpl.
    destruct (io_apiKey opts) as [| |k]; try reflexivity.
    simpl in Hk. simpl. rewrite Hk. reflexivity.
  - intros key Hc Hp He. destruct (Hkey key Hp) as [H1 H2].
    unfold init, tryCatch, bind.
    destruct (String.eqb_spec cid ""); [contradiction|]. simpl.
    rewrite H1. simpl in H2. simpl. rewrite H2, He. reflexivity.
  - intros key Hc Hp He Hv. destruct (Hkey key Hp) as [H1 H2].
    destruct (verifyApiKey_run net key f) as (t & Hrun & Hf & Hl & _).
    exists t. split; [|split; assumption].
    unfold init, tryCatch, bind.
    destruct (String.eqb_spec cid ""); [contradiction|]. simpl.
    rewrite H1. simpl in H2. simpl. rewrite H2, He. simpl.
    rewrite Hrun, Hv. simpl. now rewrite app_nil_r.
Qed.



End FacadeInit.

Section FacadeInitExample.

Import MapifyOS.

Local Open Scope string_scope.





End FacadeInitExample.

(** ** The facade's own place lookup *)

Section FacadeLookup.

Import MapifyOS.

Local Open Scope string_scope.

Context {S : Type}.

(** X18.  The facade's [getPlaceDetails] never raises and changes no state: it
    returns a record whose seven fields are populated and whose
    coordinates are the input's.  When a lookup fails, or either lookup
    answers [null], the record is the one with every field at its fallback
    and category "Location"; otherwise the category is the raw value of
    the first present key among amenity, shop, office, building, or
    "Building". *)
Theorem facade_getPlaceDetails_complete (net : network) (lat lng : Q) (s : S) :
  stateOf (getPlaceDetails net lat lng s) = s
  /\ exists r,
       resultOf (getPlaceDetails net lat lng s) = inr r
       /\ populated r = true
       /\ coordinates r = {| lat := lat; lng := lng |}
       /\ (lookupUnusable (serveNominatim net lat lng)
           || lookupUnusable (serveOverpass net lat lng) = true ->
           r = fallbackRecord lat lng)
       /\ (forall rn n ro d,
             serveNominatim net lat lng = Some rn -> body rn = JsonObject n ->
             serveOverpass net lat lng = Some ro -> body ro = JsonObject d ->
             let tags := MapManager.tagsOf (ApiManager.firstElement d) in
             type r = or (prop tags "amenity")
                        (or (prop tags "shop")
                            (or (prop tags "office")
                                (or (prop tags "building") (JStr "Building"))))).
Proof.
  assert (Hpop : forall a b c d e f g h i j k l m n (c0 : LatLng),
             populated
               {| name := or a (or b (or c (JStr "Unnamed Location")));
                  address := or d (JStr "Address not available");
                  type := or e (or f (or g (or h (JStr "Building"))));
                  phone := or i (or j (JStr "Not available"));
                  website := or k (or l (or m JNull));
                  hours := or n (JStr "Not available");
                  coordinates := c0 |} = true).
  { intros. unfold populated. cbn [name address type phone website hours].
    rewrite or_null_chain.
    repeat (rewrite truthy_or by (repeat apply truthy_or; reflexivity)).
    reflexivity. }
  cbv [getPlaceDetails tryCatch bind fetch tell responseJson member throw ret
       stateOf traceOf resultOf lookupUnusable fst snd].
  destruct (serveNominatim net lat lng) as [[o1 st1 [| |n]]|];
    destruct (serveOverpass net lat lng) as [[o2 st2 [| |d]]|];
    cbv beta iota; (split; [reflexivity|]);
    eexists; (split; [reflexivity|]);
    (split; [first [reflexivity | apply Hpop]|]);
    (split; [reflexivity|]);
    (split; [intros H; first [discriminate H | reflexivity]|]);
    intros rn n' ro d' E1 E2 E3 E4; try discriminate;
    injection E1 as <-; injection E3 as <-; simpl in E2, E4;
    try discriminate; injection E2 as <-; injection E4 as <-; reflexivity.
Qed.

End FacadeLookup.

(** ** Escaping *)

Section Escaping.

Import PopupUI.

Local Open Scope string_scope.






(** X20.  Building a popup throws only for a record whose address is [null]
    (then a [TypeError], before any markup is made); for every other record
    it returns markup, and touches nothing.  The popup of a search result
    is always built: a result without address gets the literal
    "Address not available". *)
Theorem popup_needs_an_address {S} (data : PopupData) (result : SearchResult) (s : S) :
  (pd_address data = JNull ->
   createPopupContent data s
   = (s, [], inl (TypeError "Cannot read properties of null (reading 'replace')")))
  /\ (pd_address data <> JNull ->
      exists markup, createPopupContent data s = (s, [], inr markup))
  /\ (exists markup, createSearchResultPopup result s = (s, [], inr markup)).
Proof.
  repeat apply conj.
  - intros H. unfold createPopupContent, bind. rewrite H. reflexivity.
  - apply createPopupContent_ok.
  - apply createSearchResultPopup_ok.
Qed.

End Escaping.

(** ** From a query to a request *)

Section Queries.

Import MapManager.

Local Open Scope string_scope.

(** Every character of [s] is ASCII. *)
Fixpoint asciiText (s : string) : bool :=
  match s with
  | EmptyString => true
  | String c rest => (code c <? 128)%nat && asciiText rest
  end.

(** [s] with its ASCII capitals made small. *)
Fixpoint lowerAscii (s : string) : string :=
  match s with
  | EmptyString => EmptyString
  | String c rest => String (toLowerChar c) (lowerAscii rest)
  end.

(** [s] is empty or starts with an ASCII character. *)
Definition asciiHead (s : string) : bool :=
  match s with
  | EmptyString => true
  | String c _ => (code c <? 128)%nat
  end.

Lemma append_cons (c : ascii) (a b : string) : String c a ++ b = String c (a ++ b).
Proof. reflexivity. Qed.

Lemma append_nil (b : string) : "" ++ b = b.
Proof. reflexivity. Qed.

Ltac push_append := repeat (rewrite append_cons || rewrite append_nil).

Lemma ascii_not_lead (c : ascii) :
  (code c <? 128)%nat = true ->
  Ascii.eqb c "196" = false /\ Ascii.eqb c "226" = false
  /\ Ascii.eqb c "176" = false /\ Ascii.eqb c "132" = false.
Proof.
  destruct c as [[] [] [] [] [] [] [] []]; intros H; try discriminate H;
    repeat split.
Qed.

Lemma toLowerCase_ascii (w rest : string) :
  asciiText w = true -> toLowerCase (w ++ rest) = lowerAscii w ++ toLowerCase rest.
Proof.
  induction w as [|c w IH]; intros H; [reflexivity|].
  cbn [asciiText] in H. apply andb_true_iff in H as [Hc Hw].
  destruct (ascii_not_lead c Hc) as (E1 & E2 & _).
  push_append. cbn [toLowerCase lowerAscii]. rewrite E1, E2. push_append. now rewrite IH.
Qed.

Lemma append_nil_r (a : string) : a ++ "" = a.
Proof. induction a as [|c a IH]; [reflexivity|]. now rewrite append_cons, IH. Qed.

Lemma toLowerCase_cons (c : ascii) (rest : string) :
  toLowerCase (String c rest)
  = if Ascii.eqb c "196" then
      match rest with
      | String d rest' =>
          if Ascii.eqb d "176"
          then String "i" (String "204" (String "135" (toLowerCase rest')))
          else String c (toLowerCase rest)
      | EmptyString => String c EmptyString
      end
    else if Ascii.eqb c "226" then
      match rest with
      | String d (String e rest') =>
          if Ascii.eqb d "132" && Ascii.eqb e "170"
          then String "k" (toLowerCase rest')
          else String c (toLowerCase rest)
      | _ => String c (toLowerCase rest)
      end
    else String (toLowerChar c) (toLowerCase rest).
Proof. reflexivity. Qed.

Lemma toLowerCase_before_ascii_upto (n : nat) (a s : string) :
  String.length a <= n -> asciiHead s = true ->
  toLowerCase (a ++ s) = toLowerCase a ++ toLowerCase s.
Proof.
  intros Hn Hs. destruct s as [|x s]; [now rewrite !append_nil_r|].
  cbn [asciiHead] in Hs.
  destruct (ascii_not_lead x Hs) as (_ & _ & Ex176 & Ex132).
  assert (Ex170 : Ascii.eqb x "170" = false).
  { destruct x as [[] [] [] [] [] [] [] []]; try discriminate Hs; reflexivity. }
  revert a Hn. induction n as [|n IH]; intros a Hn.
  - destruct a; [reflexivity | simpl in Hn; lia].
  - destruct a as [|c a]; [reflexivity|]. simpl in Hn.
    assert (Ha : toLowerCase (a ++ String x s)
                 = toLowerCase a ++ toLowerCase (String x s)) by (apply IH; lia).
    rewrite append_cons, !(toLowerCase_cons c).
    destruct (Ascii.eqb c "196") eqn:E1.
    + destruct a as [|d a'].
      * rewrite append_nil, Ex176. reflexivity.
      * rewrite append_cons. destruct (Ascii.eqb d "176").
        -- rewrite !append_cons. rewrite IH by (simpl in Hn; lia). reflexivity.
        -- rewrite append_cons in Ha. rewrite append_cons. now rewrite <- Ha.
    + destruct (Ascii.eqb c "226") eqn:E2.
      * destruct a as [|d a'].
        -- rewrite append_nil, Ex132.
           destruct s as [|y s'']; reflexivity.
        -- destruct a' as [|e a''].
           ++ rewrite !append_cons, append_nil in Ha.
              rewrite !append_cons, append_nil.
              rewrite Ex170, andb_false_r. now rewrite <- Ha.
           ++ rewrite !append_cons. destruct (Ascii.eqb d "132" && Ascii.eqb e "170").
              ** rewrite append_cons. rewrite IH by (simpl in Hn; lia). reflexivity.
              ** rewrite !append_cons in Ha. rewrite append_cons. now rewrite <- Ha.
      * rewrite append_cons. now rewrite Ha.
Qed.

Lemma startsWith_append (p rest : string) : startsWith p (p ++ rest) = true.
Proof.
  induction p as [|c p IH]; [reflexivity|]. push_append. cbn [startsWith].
  now rewrite Ascii.eqb_refl, IH.
Qed.

Lemma includes_middle (x p y : string) : includes (x ++ p ++ y) p = true.
Proof.
  induction x as [|c x IH].
  - push_append. destruct (p ++ y) eqn:E; cbn [includes];
      rewrite <- E, startsWith_append; reflexivity.
  - push_append. cbn [includes]. rewrite IH. apply orb_true_r.
Qed.

(** X21.  A query that mentions "hospital", in any mix of ASCII capitals and
    small letters and anywhere in the text, is a search for hospitals,
    whatever other keywords the query holds. *)
Theorem hospital_wins (before word after : string) :
  asciiText word = true ->
  lowerAscii word = "hospital" ->
  parseSearchQuery (before ++ word ++ after) = "hospital".
Proof.
  intros Hw Hl.
  assert (Hhead : asciiHead (word ++ after) = true).
  { destruct word as [|c w]; [discriminate Hl|].
    cbn [asciiText] in Hw. apply andb_true_iff in Hw as [Hc _]. exact Hc. }
  unfold parseSearchQuery.
  rewrite (toLowerCase_before_ascii_upto (String.length before)) by (lia || exact Hhead).
  rewrite toLowerCase_ascii by exact Hw. rewrite Hl.
  now rewrite includes_middle.
Qed.

Lemma hospital_wins_witness :
  parseSearchQuery ("cheap gas near the best " ++ "HoSpItAl" ++ " or pharmacy") = "hospital".
Proof.
  apply (hospital_wins "cheap gas near the best " "HoSpItAl" " or pharmacy");
    reflexivity.
Defined.





End Queries.

(** ** What the popup shows *)

Section PopupSections.

Import PopupUI.

Local Open Scope string_scope.

(** The record [data] with some of its fields replaced. *)
Definition withContact (phone website hours type : jsval) (data : PopupData) : PopupData :=
  {| pd_name := pd_name data;
     pd_address := pd_address data;
     pd_type := type;
     pd_phone := phone;
     pd_website := website;
     pd_hours := hours |}.

(** A value that shows no line in the popup: missing, [null] or empty. *)
Definition blank (v : jsval) : Prop := truthy v = false.

(** X23.  The sentinels render as nothing: a phone or hours of "Not available",
    like a blank one, and a blank website add no line, and the category
    "Location", like a category left out, adds no badge.  So the popup of
    such a record is the popup of the same record with these four fields
    left out. *)
Theorem sentinels_show_nothing {S} (data : PopupData) (phone website hours : jsval)
    (s : S) :
  (blank phone \/ phone = JStr "Not available") ->
  blank website ->
  (blank hours \/ hours = JStr "Not available") ->
  createPopupContent (withContact phone website hours (JStr "Location") data) s
  = createPopupContent (withContact JUndefined JUndefined JUndefined JUndefined data) s.
Proof.
  unfold blank. intros Hp Hw Hh.
  unfold createPopupContent, withContact, bind.
  cbn [pd_name pd_address pd_type pd_phone pd_website pd_hours].
  destruct (withDefault (pd_address data) "Address not available") as [| |a];
    try reflexivity.
  cbv beta iota.
  assert (Ep : truthy phone && differsFrom phone "Not available" = false).
  { destruct Hp as [Hp| ->]; [now rewrite Hp | reflexivity]. }
  assert (Eh : truthy hours && differsFrom hours "Not available" = false).
  { destruct Hh as [Hh| ->]; [now rewrite Hh | reflexivity]. }
  rewrite Ep, Eh, Hw.
  destruct website; reflexivity.
Qed.

Lemma sentinels_show_nothing_witness :
  createPopupContent
    (withContact (JStr "Not available") JNull (JStr "Not available") (JStr "Location")
       hostileRecord) tt
  = createPopupContent
      (withContact JUndefined JUndefined JUndefined JUndefined hostileRecord) tt.
Proof.
  apply (sentinels_show_nothing hostileRecord (JStr "Not available") JNull
           (JStr "Not available") tt).
  - right. reflexivity.
  - reflexivity.
  - right. reflexivity.
Defined.




(** X25.  The first comma-segment of a text is the part before its first comma:
    it holds no comma, and the text is the segment followed by nothing or
    by a comma and more text. *)
Theorem firstCommaSegment_is_prefix (s : string) :
  includes (firstCommaSegment s) "," = false
  /\ (s = firstCommaSegment s
      \/ exists rest, s = firstCommaSegment s ++ "," ++ rest).
Proof.
  induction s as [|c s [IH1 IH2]]; [split; [reflexivity | now left]|].
  cbn [firstCommaSegment].
  destruct (Ascii.eqb_spec c ",") as [->|Hc].
  - split; [reflexivity|]. right. exists s. reflexivity.
  - split.
    + cbn [includes startsWith].
      destruct (Ascii.eqb_spec "," c) as [E|_]; [congruence|]. exact IH1.
    + destruct IH2 as [IH2|[rest IH2]].
      * left. now rewrite <- IH2.
      * right. exists rest. rewrite append_cons. now rewrite <- IH2.
Qed.

End PopupSections.

(** ** The search request of the API layer *)

Section SearchRequest.

Local Open Scope string_scope.

(** X26.  [searchPlaces] never throws and changes no state.  For an answer with
    an OK status and a JSON object, it returns the object's [results], or
    the empty list when the object has none; every failure (no answer, a
    status that is not OK, a body that is not JSON, [null]) gives the
    empty list as well, so a caller cannot tell a failed search from one
    that found nothing. *)
Theorem searchPlaces_total {S} (net : network) (key : string)
    (params : ApiManager.SearchParams) (s : S) :
  stateOf (ApiManager.searchPlaces net key params s) = s
  /\ (exists found, resultOf (ApiManager.searchPlaces net key params s) = inr found)
  /\ (searchFails (searchReply net key params) = true ->
      resultOf (ApiManager.searchPlaces net key params s) = inr [])
  /\ (forall r d, searchReply net key params = Some r -> ok r = true ->
        body r = JsonObject d ->
        resultOf (ApiManager.searchPlaces net key params s)
        = inr (default [] (results d))).
Proof.
  destruct (searchPlaces_run net key params s) as (t & found & -> & _ & _ & H1 & H2).
  cbn [stateOf resultOf fst snd]. repeat apply conj.
  - reflexivity.
  - eauto.
  - intros H. now rewrite (H1 H).
  - intros r d E1 E2 E3. now rewrite (H2 r d E1 E2 E3).
Qed.

End SearchRequest.
